(** * qwantz-daily: the comic scraper and the README updater

    A shallow embedding of [src/scraper.py] and [src/update_readme.py].

    Conventions of the embedding.
    - A Python [str] is a [string] holding its UTF-8 encoding, a Python
      [bytes] is a [string] of raw bytes.  Every separator and marker the
      two scripts look for is ASCII, so splitting, filtering and prefix
      tests act on the encoding exactly as they act on the code points;
      [str.strip] knows non-ASCII characters and is modelled on their
      encodings.
    - The name of a file is kept as the bytes the file system holds.
      Python reads it with [os.fsdecode] (UTF-8, a byte that is not UTF-8
      escaped to a lone surrogate): names are compared and matched against
      patterns on the code points so decoded, and a text that holds an
      escaped byte cannot be written to a file.
    - The project is checked out at a path that holds none of the
      characters [* ? []: [glob] is handed the absolute path of the
      archive and would read them as a pattern over directories outside
      the project.
    - The network and the failures of the operating system are inputs:
      a [world] answers the two HTTP requests and says how each write ends.
      What the scripts print is left out.
    - The working directory of the scraper is a finite map from file names
      to contents; the project tree read by the README updater is a tree of
      directories whose entries come in listing order. *)

From Stdlib Require Import Ascii String.
From Stdlib Require Import Sorted.
From stdpp Require Import base option list strings gmap.

Local Open Scope char_scope.
Local Open Scope stdpp_scope.

(** ** Python string primitives *)

Module Py.

Definition LF : ascii := "010".
Definition CR : ascii := "013".

(** A one-character string and the newline [\n]. *)
Definition chr (c : ascii) : string := String c EmptyString.
Definition nl : string := chr LF.

(** [c in s] for a character [c]. *)
Fixpoint mem (c : ascii) (s : string) : bool :=
  match s with
  | EmptyString => false
  | String a r => Ascii.eqb c a || mem c r
  end.

(** [''.join(ch for ch in s if keep ch)] *)
Fixpoint filter_chars (keep : ascii → bool) (s : string) : string :=
  match s with
  | EmptyString => EmptyString
  | String a r =>
      if keep a then String a (filter_chars keep r) else filter_chars keep r
  end.

(** [s.split(sep)] for a one-character separator: never empty. *)
Fixpoint split (sep : ascii) (s : string) : list string :=
  match s with
  | EmptyString => [EmptyString]
  | String a r =>
      if Ascii.eqb a sep then EmptyString :: split sep r
      else match split sep r with
           | h :: t => String a h :: t
           | [] => [chr a]
           end
  end.

(** [parts[0]] and [parts[-1]] of a list produced by a split. *)
Definition first (parts : list string) : string := hd EmptyString parts.
Definition last (parts : list string) : string := List.last parts EmptyString.

(** [s.rsplit(sep, 1)]: cut once, at the last separator. *)
Fixpoint rsplit1_go (sep : ascii) (s : string) : option (string * string) :=
  match s with
  | EmptyString => None
  | String a r =>
      match rsplit1_go sep r with
      | Some (before, after) => Some (String a before, after)
      | None => if Ascii.eqb a sep then Some (EmptyString, r) else None
      end
  end.

Definition rsplit1 (sep : ascii) (s : string) : list string :=
  match rsplit1_go sep s with
  | Some (before, after) => [before; after]
  | None => [s]
  end.

(** [s.startswith(p)] is [String.prefix p s].  [s.endswith(p)]: [p] is
    [s] or ends what follows the first character of [s]. *)
Fixpoint endswith (p s : string) : bool :=
  String.eqb p s ||
  match s with
  | EmptyString => false
  | String _ r => endswith p r
  end.

(** [sub in s] for a non-empty [sub]: some tail of [s] starts with it. *)
Fixpoint contains (sub s : string) : bool :=
  String.prefix sub s ||
  match s with
  | EmptyString => false
  | String _ r => contains sub r
  end.

(** [s.replace(old, new)] for a non-empty [old]: left to right, without
    overlap.  [skip] counts the characters of a match still to pass. *)
Fixpoint replace_go (old new : string) (skip : nat) (s : string) : string :=
  match s with
  | EmptyString => EmptyString
  | String a r =>
      match skip with
      | S k => replace_go old new k r
      | O =>
          if String.prefix old s
          then new +:+ replace_go old new (String.length old - 1) r
          else String a (replace_go old new 0 r)
      end
  end.

Definition replace (old new s : string) : string := replace_go old new 0 s.

(** The characters [str.isspace] accepts, by code point, and the UTF-8
    encoding of a code point below U+10000. *)
Definition whitespace_codepoints : list N :=
  [0x09; 0x0A; 0x0B; 0x0C; 0x0D; 0x1C; 0x1D; 0x1E; 0x1F; 0x20; 0x85; 0xA0;
   0x1680; 0x2000; 0x2001; 0x2002; 0x2003; 0x2004; 0x2005; 0x2006; 0x2007;
   0x2008; 0x2009; 0x200A; 0x2028; 0x2029; 0x202F; 0x205F; 0x3000]%N.

Definition utf8 (cp : N) : string :=
  if (cp <? 0x80)%N then chr (ascii_of_N cp)
  else if (cp <? 0x800)%N then
    String (ascii_of_N (0xC0 + cp / 64))
      (chr (ascii_of_N (0x80 + cp mod 64)))
  else
    String (ascii_of_N (0xE0 + cp / 4096))
      (String (ascii_of_N (0x80 + (cp / 64) mod 64))
         (chr (ascii_of_N (0x80 + cp mod 64)))).

Definition whitespace : list string := map utf8 whitespace_codepoints.

Definition is_space (ch : string) : bool :=
  existsb (String.eqb ch) whitespace.

(** [s.lstrip()]: a whitespace character takes one, two or three bytes. *)
Fixpoint lstrip (s : string) : string :=
  match s with
  | EmptyString => EmptyString
  | String a r1 =>
      if is_space (chr a) then lstrip r1 else
      match r1 with
      | EmptyString => s
      | String b r2 =>
          if is_space (String a (chr b)) then lstrip r2 else
          match r2 with
          | EmptyString => s
          | String c r3 =>
              if is_space (String a (String b (chr c))) then lstrip r3
              else s
          end
      end
  end.

(** [s.rstrip()]: what is left of [String a r] is [a] followed by what is
    left of [r], unless that is one whitespace character. *)
Fixpoint rstrip (s : string) : string :=
  match s with
  | EmptyString => EmptyString
  | String a r =>
      let kept := String a (rstrip r) in
      if is_space kept then EmptyString else kept
  end.

Definition strip (s : string) : string := rstrip (lstrip s).

(** The string starts, or ends, with a whitespace character. *)
Definition starts_with_space (s : string) : bool :=
  existsb (λ w, String.prefix w s) whitespace.
Definition ends_with_space (s : string) : bool :=
  existsb (λ w, endswith w s) whitespace.

(** Iterating a file opened with [open(path, 'r')]: universal newlines,
    so a line ends at [\n], [\r\n] or [\r], each handed over as [\n]. *)
Fixpoint lines (s : string) : list string :=
  match s with
  | EmptyString => []
  | String a r =>
      if Ascii.eqb a LF then nl :: lines r
      else if Ascii.eqb a CR then
        match r with
        | String b r' => if Ascii.eqb b LF then nl :: lines r' else nl :: lines r
        | EmptyString => [nl]
        end
      else match lines r with
           | l :: ls => String a l :: ls
           | [] => [chr a]
           end
  end.

(** *** UTF-8 *)

Definition byte (c : ascii) : N := N_of_ascii c.

Definition between (lo hi : N) (c : ascii) : bool :=
  ((lo <=? byte c) && (byte c <=? hi))%N.

(** A continuation byte, and the second byte a lead byte allows: no
    overlong form, no surrogate, nothing above U+10FFFF. *)
Definition continuation : ascii → bool := between 0x80 0xBF.

Definition second_byte (lead : N) : ascii → bool :=
  if (lead =? 0xE0)%N then between 0xA0 0xBF
  else if (lead =? 0xED)%N then between 0x80 0x9F
  else if (lead =? 0xF0)%N then between 0x90 0xBF
  else if (lead =? 0xF4)%N then between 0x80 0x8F
  else continuation.

(** The six bits a continuation byte carries. *)
Definition low6 (c : ascii) : N := (byte c mod 64)%N.

(** [os.fsdecode] with the file system encoding UTF-8: the code points of
    a name.  A byte that is not part of a UTF-8 sequence is escaped to
    the lone surrogate U+DC00 + byte. *)
Fixpoint fsdecode (s : string) : list N :=
  match s with
  | EmptyString => []
  | String b0 r1 =>
      let lead := byte b0 in
      let escaped := (0xDC00 + lead)%N :: fsdecode r1 in
      if (lead <? 0x80)%N then lead :: fsdecode r1
      else if (lead <? 0xC2)%N || (0xF4 <? lead)%N then escaped
      else
        match r1 with
        | EmptyString => escaped
        | String b1 r2 =>
            if negb (second_byte lead b1) then escaped
            else if (lead <? 0xE0)%N
            then ((lead - 0xC0) * 64 + low6 b1)%N :: fsdecode r2
            else
              match r2 with
              | EmptyString => escaped
              | String b2 r3 =>
                  if negb (continuation b2) then escaped
                  else if (lead <? 0xF0)%N
                  then ((lead - 0xE0) * 4096 + low6 b1 * 64 + low6 b2)%N
                       :: fsdecode r3
                  else
                    match r3 with
                    | EmptyString => escaped
                    | String b3 r4 =>
                        if negb (continuation b3) then escaped
                        else ((lead - 0xF0) * 262144 + low6 b1 * 4096
                              + low6 b2 * 64 + low6 b3)%N :: fsdecode r4
                    end
              end
        end
  end.

(** [a <= b] on two [str], code point by code point. *)
Fixpoint codepoints_leb (a b : list N) : bool :=
  match a, b with
  | [], _ => true
  | _ :: _, [] => false
  | x :: a', y :: b' => (x <? y)%N || ((x =? y)%N && codepoints_leb a' b')
  end.

Definition name_leb (a b : string) : bool :=
  codepoints_leb (fsdecode a) (fsdecode b).

(** Every character of [s] is ASCII. *)
Fixpoint is_ascii (s : string) : bool :=
  match s with
  | EmptyString => true
  | String c r => (byte c <? 0x80)%N && is_ascii r
  end.

(** The strict UTF-8 decoder, fed [s] with more bytes to come: [None]
    when it raises [UnicodeDecodeError], otherwise the number of bytes at
    the end of [s] it holds back, the start of a sequence that is not
    complete yet. *)
Fixpoint utf8_pending (s : string) : option nat :=
  match s with
  | EmptyString => Some 0
  | String b0 r1 =>
      let lead := byte b0 in
      if (lead <? 0x80)%N then utf8_pending r1
      else if (lead <? 0xC2)%N || (0xF4 <? lead)%N then None
      else
        match r1 with
        | EmptyString => Some 1
        | String b1 r2 =>
            if negb (second_byte lead b1) then None
            else if (lead <? 0xE0)%N then utf8_pending r2
            else
              match r2 with
              | EmptyString => Some 2
              | String b2 r3 =>
                  if negb (continuation b2) then None
                  else if (lead <? 0xF0)%N then utf8_pending r3
                  else
                    match r3 with
                    | EmptyString => Some 3
                    | String b3 r4 =>
                        if negb (continuation b3) then None
                        else utf8_pending r4
                    end
              end
        end
  end.

(** [s] is the UTF-8 encoding of a text: a [str] holding it can be
    encoded, a file holding it can be decoded to its end. *)
Definition is_utf8 (s : string) : bool :=
  match utf8_pending s with
  | Some 0 => true
  | _ => false
  end.

(** *** Reading a text file line by line

    [open(path, 'r', encoding='utf-8')] reads the file in chunks of 8192
    bytes and decodes each chunk as it is read, so that a byte that is
    not UTF-8 raises [UnicodeDecodeError] once its chunk is read, and not
    before. *)
Definition chunk_size : nat := 8 * 1024.

Definition drop_last (n : nat) (s : string) : string :=
  String.substring 0 (String.length s - n) s.

(** The text at hand after a read: what is decoded, less a carriage
    return at its end, which is held back until the next character
    tells whether it ends a line alone. *)
Definition text_at_hand (decoded : string) : string :=
  if endswith (chr CR) decoded then drop_last 1 decoded else decoded.

(** The lines of the text at hand that are known to be complete. *)
Definition complete_lines (text : string) : list string :=
  List.filter (endswith nl) (lines text).

(** Whether reading [content] line by line, up to the first line that
    [stop] accepts, raises [UnicodeDecodeError].  [reads] chunks have
    been read without finding such a line. *)
Fixpoint read_raises (stop : string → bool) (fuel reads : nat)
    (content : string) : bool :=
  match fuel with
  | O => false
  | S fuel' =>
      if (String.length content <=? chunk_size * reads)%nat
      then negb (is_utf8 content)
      else
        let read := String.substring 0 (chunk_size * S reads) content in
        match utf8_pending read with
        | None => true
        | Some held =>
            if existsb stop (complete_lines (text_at_hand (drop_last held read)))
            then false
            else read_raises stop fuel' (S reads) content
        end
  end.

(** *** fnmatch

    A pattern, on code points, as [fnmatch.translate] reads it. *)
Inductive glob_item :=
| AnyString
| AnyChar
| NoChar
| OneOf (negated : bool) (chars : list N) (ranges : list (N * N))
| Exactly (c : N).

Definition STAR : N := 42.
Definition QUESTION : N := 63.
Definition LBRACKET : N := 91.
Definition RBRACKET : N := 93.
Definition BANG : N := 33.
Definition HYPHEN : N := 45.

(** The characters up to the next closing bracket, if there is one. *)
Fixpoint until_bracket (pat : list N) : option (list N) :=
  match pat with
  | [] => None
  | c :: rest =>
      if (c =? RBRACKET)%N then Some []
      else option_map (cons c) (until_bracket rest)
  end.

(** What stands between an opening bracket and the bracket that closes
    it: a [!] and then a [\]] that come first do not close it. *)
Definition bracket_body (pat : list N) : option (list N) :=
  let (bang, r1) :=
    match pat with
    | c :: r => if (c =? BANG)%N then ([c], r) else ([], pat)
    | [] => ([], [])
    end in
  let (first, r2) :=
    match r1 with
    | c :: r => if (c =? RBRACKET)%N then ([c], r) else ([], r1)
    | [] => ([], [])
    end in
  option_map (λ mid, bang ++ first ++ mid) (until_bracket r2).

(** The body cut at the hyphens that make a range: [skip] characters are
    still to pass before a hyphen counts, [cur] is the chunk begun. *)
Fixpoint range_chunks (skip : nat) (cur : list N) (body : list N)
  : list (list N) :=
  match body with
  | [] => [cur]
  | c :: rest =>
      match skip with
      | S k => range_chunks k (cur ++ [c]) rest
      | O =>
          if (c =? HYPHEN)%N then
            match rest with
            | [] => [cur ++ [c]]
            | _ => cur :: range_chunks 2 [] rest
            end
          else range_chunks 0 (cur ++ [c]) rest
      end
  end.

(** A range whose first end lies after its last is dropped, ends
    included. *)
Fixpoint drop_empty_ranges (chunks : list (list N)) : list (list N) :=
  match chunks with
  | [] => []
  | c :: rest =>
      match drop_empty_ranges rest with
      | [] => [c]
      | c' :: rest' =>
          if (hd 0 c' <? List.last c 0)%N
          then (removelast c ++ tl c') :: rest'
          else c :: c' :: rest'
      end
  end.

(** The ranges between the chunks: from the last character of a chunk to
    the first of the next. *)
Fixpoint ranges_between (chunks : list (list N)) : list (N * N) :=
  match chunks with
  | c :: ((c' :: _) as rest) => (List.last c 0, hd 0 c')%N :: ranges_between rest
  | _ => []
  end.

Definition mem_codepoint (c : N) (l : list N) : bool := existsb (N.eqb c) l.

Definition char_class (body : list N) : glob_item :=
  let chunks :=
    if mem_codepoint HYPHEN body
    then drop_empty_ranges
           (range_chunks (if (hd 0 body =? BANG)%N then 2 else 1) [] body)
    else [body] in
  let chars := concat chunks in
  match chars with
  | [] => NoChar
  | c :: chars' =>
      if (c =? BANG)%N then
        match chars' with
        | [] => AnyChar
        | _ => OneOf true chars' (ranges_between chunks)
        end
      else OneOf false chars (ranges_between chunks)
  end.

(** [fnmatch.translate]: [skip] counts the characters of a bracket
    expression still to pass. *)
Fixpoint translate_go (skip : nat) (pat : list N) : list glob_item :=
  match pat with
  | [] => []
  | c :: rest =>
      match skip with
      | S k => translate_go k rest
      | O =>
          if (c =? STAR)%N then AnyString :: translate_go 0 rest
          else if (c =? QUESTION)%N then AnyChar :: translate_go 0 rest
          else if (c =? LBRACKET)%N then
            match bracket_body rest with
            | Some body => char_class body :: translate_go (S (length body)) rest
            | None => Exactly c :: translate_go 0 rest
            end
          else Exactly c :: translate_go 0 rest
      end
  end.

Definition translate (pat : list N) : list glob_item := translate_go 0 pat.

Definition in_range (c : N) (r : N * N) : bool :=
  ((r.1 <=? c) && (c <=? r.2))%N.

Definition item_matches (item : glob_item) (c : N) : bool :=
  match item with
  | AnyString | AnyChar => true
  | NoChar => false
  | OneOf negated chars ranges =>
      xorb negated (mem_codepoint c chars || existsb (in_range c) ranges)
  | Exactly c' => (c =? c')%N
  end.

(** The whole name matches the pattern. *)
Fixpoint matches (items : list glob_item) (name : list N) : bool :=
  match items with
  | [] => match name with [] => true | _ :: _ => false end
  | AnyString :: items' =>
      (fix from (name : list N) : bool :=
         matches items' name ||
         match name with
         | [] => false
         | _ :: name' => from name'
         end) name
  | item :: items' =>
      match name with
      | [] => false
      | c :: name' => item_matches item c && matches items' name'
      end
  end.

(** [fnmatch.fnmatch(name, pat)] where file names keep their case. *)
Definition fnmatch (name pat : string) : bool :=
  matches (translate (fsdecode pat)) (fsdecode name).

End Py.

(** ** scraper.py *)

Definition QWANTZ_BASE_URL : string := "https://www.qwantz.com/".

Definition INVALID_FILENAME_CHARS : list ascii :=
  ["/"%char; "\"%char; "?"%char; "%"%char; "*"%char; ":"%char; "|"%char;
   "034"%char; "<"%char; ">"%char; "."%char].

Definition invalid_char (c : ascii) : bool :=
  existsb (Ascii.eqb c) INVALID_FILENAME_CHARS.

Definition sanitize_filename (filename : string) : string :=
  Py.filter_chars (λ c, negb (invalid_char c)) filename.

(** *** The parsed page

    What [BeautifulSoup(text, "html.parser")] hands over: a tree of tags and
    text.  [attrs] is the tag's attribute dictionary; the parser keeps the
    [class] attribute apart from the others, as the list of its tokens. *)
#[warnings="-register-all"] Inductive node :=
| NavigableString (text : string)
| Tag (name : string) (classes : list string) (attrs : gmap string string)
      (contents : list node).

(** [tag.descendants]: the nodes below a tag, in document order. *)
Fixpoint descendants (n : node) : list node :=
  match n with
  | NavigableString _ => []
  | Tag _ _ _ contents =>
      (fix below (l : list node) : list node :=
         match l with
         | [] => []
         | c :: l' => c :: descendants c ++ below l'
         end) contents
  end.

(** The filter of [find('img', class_='comic')]: the tag is an [img], and one
    of its class tokens, or the whole class attribute, is [comic]. *)
Definition is_comic_img (n : node) : bool :=
  match n with
  | NavigableString _ => false
  | Tag name classes _ _ =>
      String.eqb name "img" &&
      (existsb (String.eqb "comic") classes
       || String.eqb (String.concat " " classes) "comic")
  end.

(** [soup.find('img', class_='comic')]: the first match in document order. *)
Definition find_comic_img (soup : node) : option node :=
  List.find is_comic_img (descendants soup).

(** [tag.get(key)] *)
Definition get (n : node) (key : string) : option string :=
  match n with
  | NavigableString _ => None
  | Tag _ _ attrs _ => attrs !! key
  end.

Record comic_data := ComicData { image_url : string; title : string }.

Definition extract_comic_data (soup : node) : option comic_data :=
  match find_comic_img soup with
  | None => None
  | Some comic_img =>
      match get comic_img "src" with
      | None => None
      | Some image_src =>
          if String.eqb image_src EmptyString then None
          else Some {| image_url := QWANTZ_BASE_URL +:+ image_src;
                       title := default "unknown" (get comic_img "title") |}
      end
  end.

(** *** Files of the working directory *)

(** How a write ends: the file is written; [open] raises [IOError] and
    nothing changes; or [open] has created the file and the write raises
    [IOError] after [written] bytes. *)
Inductive io := Written | OpenFails | WriteFails (written : nat).

Definition write_file (how : io) (path data : string) (cwd : gmap string string)
  : bool * gmap string string :=
  match how with
  | Written => (true, <[path := data]> cwd)
  | OpenFails => (false, cwd)
  | WriteFails n => (false, <[path := String.substring 0 n data]> cwd)
  end.

(** [save_image]: [IOError] is caught and answered by [False]. *)
Definition save_image (how : io) (image_data filepath : string)
    (cwd : gmap string string) : bool * gmap string string :=
  write_file how filepath image_data cwd.

Definition get_file_extension (url : string) : string :=
  Py.first (Py.split "?" (Py.last (Py.split "." url))).

(** *** get_current_comic

    The names and the text it builds (lines 168-169, 178, 183, 186-187). *)
Definition image_filename (url : string) : string := Py.last (Py.split "/" url).

Definition base_filename (url : string) : string :=
  Py.first (Py.rsplit1 "." (image_filename url)).

Definition image_path (url : string) : string :=
  base_filename url +:+ "." +:+ get_file_extension url.

Definition metadata_path (url : string) : string :=
  base_filename url +:+ "_metadata.txt".

Definition metadata_text (d : comic_data) : string :=
  ("Title: " +:+ title d +:+ Py.nl) +:+ ("Image URL: " +:+ image_url d +:+ Py.nl).

(** What the run gets from outside: the answers of [fetch_webpage] and
    [download_image] ([None] when the request fails) and the fate of its two
    writes. *)
Record world := World {
  fetch_webpage : string → option node;
  download_image : string → option string;
  image_io : io;
  metadata_io : io
}.

Definition get_current_comic (w : world) (cwd : gmap string string)
  : bool * gmap string string :=
  match fetch_webpage w QWANTZ_BASE_URL with
  | None => (false, cwd)
  | Some soup =>
      match extract_comic_data soup with
      | None => (false, cwd)
      | Some data =>
          match download_image w (image_url data) with
          | None => (false, cwd)
          | Some image_data =>
              let (saved, cwd1) :=
                save_image (image_io w) image_data (image_path (image_url data)) cwd in
              if negb saved then (false, cwd1)
              else write_file (metadata_io w) (metadata_path (image_url data))
                     (metadata_text data) cwd1
          end
      end
  end.

(** ** update_readme.py *)

(** *** The project tree

    A directory lists its entries in the order [os.listdir] and [glob] see
    them; an entry is a regular file with its content or a directory. *)
#[warnings="-register-all"] Inductive entry :=
| File (content : string)
| Dir (entries : list (string * entry)).

Fixpoint lookup (name : string) (entries : list (string * entry)) : option entry :=
  match entries with
  | [] => None
  | (n, e) :: rest => if String.eqb n name then Some e else lookup name rest
  end.

Definition isdir (e : entry) : bool :=
  match e with Dir _ => true | File _ => false end.

(** Exceptions no handler of the script catches. *)
Inductive exn :=
| NotADirectoryError
| IsADirectoryError
| OSError
| UnicodeDecodeError
| UnicodeEncodeError.

(** How a call ends.  [Unmodelled] stands for an outcome the embedding
    does not describe; no call of [get_most_recent_comic] ends with it. *)
Inductive result (A : Type) :=
| Return (a : A)
| Raise (e : exn)
| Unmodelled.
Arguments Return {A} a.
Arguments Raise {A} e.
Arguments Unmodelled {A}.

(** [sorted(names, reverse=True)]: a stable sort into descending order of
    [str] comparison, here by insertion. *)
Fixpoint insert_desc (x : string) (l : list string) : list string :=
  match l with
  | [] => [x]
  | y :: rest => if Py.name_leb y x then x :: l else y :: insert_desc x rest
  end.

Definition sorted_reverse (l : list string) : list string :=
  foldr insert_desc [] l.

(** Descending order of [str] comparison: [x] may stand before [y]. *)
Definition desc (x y : string) : Prop := Py.name_leb y x = true.

(** [[d for d in os.listdir(dir) if os.path.isdir(os.path.join(dir, d))]] *)
Definition subdirectories (entries : list (string * entry)) : list string :=
  map fst (filter (λ p, isdir p.2 = true) entries).

(** [glob.has_magic] *)
Definition has_magic (s : string) : bool :=
  Py.mem "*" s || Py.mem "?" s || Py.mem "[" s.

(** [fnmatch] against [*.png], as [glob] applies it: the name ends in [.png]
    and, the pattern not starting with a dot, is not a hidden name. *)
Definition matches_png (name : string) : bool :=
  Py.endswith ".png" name && negb (String.prefix "." name).

(** [glob.glob(os.path.join(dir, '*.png'))], as names inside [dir]. *)
Definition glob_png (entries : list (string * entry)) : list string :=
  filter (λ name, matches_png name = true) (map fst entries).

(** [Path(p).stem] of a file name: the name up to its last dot, when that
    dot is neither its first nor its last character. *)
Definition stem (name : string) : string :=
  match Py.rsplit1_go "." name with
  | Some (before, after) =>
      if String.eqb before EmptyString || String.eqb after EmptyString
      then name else before
  | None => name
  end.

(** [glob._ishidden] *)
Definition hidden (name : string) : bool := String.prefix "." name.

(** [glob.glob(os.path.join(data_dir, date, '*.png'))] for a [date] that
    holds one of [* ? []: [glob] reads [date] as a pattern, takes the
    directories of [data_dir] whose names match it (hidden ones only if
    the pattern starts with a dot) in listing order, and looks for
    [*.png] in each.  Every match comes with the directory it is in. *)
Definition glob_pattern_png (data : list (string * entry)) (date : string)
  : list (string * string) :=
  flat_map
    (λ p, match p.2 with
          | Dir dir =>
              if (negb (hidden p.1) || hidden date) && Py.fnmatch p.1 date
              then map (pair p.1) (glob_png dir)
              else []
          | File _ => []
          end)
    data.

(** Lines 44-51, given the content of the metadata file when it is there. *)
Fixpoint scan_title (lines : list string) : string :=
  match lines with
  | [] => "No title available"
  | line :: rest =>
      if String.prefix "Title:" line
      then Py.strip (Py.replace "Title:" EmptyString line)
      else scan_title rest
  end.

(** Lines 43-51 for a metadata file whose text decodes as far as it is
    read; [open_metadata_title] below adds the error of the decoder. *)
Definition read_metadata_title (dir : list (string * entry)) (name : string)
  : result string :=
  match lookup name dir with
  | None => Return "No title available"
  | Some (File content) => Return (scan_title (Py.lines content))
  | Some (Dir _) => Raise IsADirectoryError
  end.

(** Whether reading the metadata file up to its title line (lines 45-49)
    raises [UnicodeDecodeError]. *)
Definition decode_raises (content : string) : bool :=
  Py.read_raises (String.prefix "Title:")
    (S (S (String.length content / Py.chunk_size))) 0 content.

(** Lines 43-51: the title, unless the bytes read on the way to it are not
    UTF-8. *)
Definition open_metadata_title (dir : list (string * entry)) (name : string)
  : result string :=
  match lookup name dir with
  | Some (File content) =>
      if decode_raises content then Raise UnicodeDecodeError
      else read_metadata_title dir name
  | _ => read_metadata_title dir name
  end.

(** Line 32: the [png] files [glob] finds for the selected directory, each
    with the name of the directory it is in.  That is the selected
    directory, unless its name holds a pattern character. *)
Definition glob_most_recent (data most_recent_dir : list (string * entry))
    (most_recent_date : string) : list (string * string) :=
  if has_magic most_recent_date then glob_pattern_png data most_recent_date
  else map (pair most_recent_date) (glob_png most_recent_dir).

(** [get_most_recent_comic], on the entries of the project root.  The tuple
    is (date, comic name, relative image path, title).  The names of a
    directory are distinct, so the entry looked up under the selected name
    is the directory it was listed for. *)
Definition get_most_recent_comic (root : list (string * entry))
  : result (option (string * string * string * string)) :=
  match lookup "data" root with
  | None => Return None
  | Some (File _) => Raise NotADirectoryError
  | Some (Dir data) =>
      match sorted_reverse (subdirectories data) with
      | [] => Return None
      | most_recent_date :: _ =>
          match lookup most_recent_date data with
          | Some (Dir most_recent_dir) =>
              match glob_most_recent data most_recent_dir most_recent_date with
              | [] => Return None
              | (found_in, image_name) :: _ =>
                  let comic_filename := stem image_name in
                  match open_metadata_title most_recent_dir
                          (comic_filename +:+ "_metadata.txt") with
                  | Return metadata_title =>
                      let rel_image_path :=
                        "data/" +:+ found_in +:+ "/" +:+ image_name in
                      Return (Some (most_recent_date, comic_filename,
                                    Py.replace " " "%20" rel_image_path,
                                    metadata_title))
                  | Raise e => Raise e
                  | Unmodelled => Unmodelled
                  end
              end
          | _ => Raise NotADirectoryError
          end
      end
  end.

(** The f-string of [update_readme]. *)
Definition readme_content (date filename image_path title : string) : string :=
  "# Dinosaur Comics Daily" +:+ Py.nl +:+ Py.nl +:+
  "#### " +:+ date +:+ Py.nl +:+ Py.nl +:+
  "![" +:+ filename +:+ "](" +:+ image_path +:+ ")" +:+ Py.nl +:+ Py.nl +:+
  "**" +:+ title +:+ "**" +:+ Py.nl +:+ Py.nl +:+
  "---" +:+ Py.nl +:+ Py.nl +:+
  "*This README is automatically updated with the latest Dinosaur Comics comic.*"
  +:+ Py.nl.

(** [open(path, 'w', encoding='utf-8')] and [f.write(text)] on an entry of
    a directory: [open] empties the file, and a text that cannot be
    encoded raises before a byte of it is written. *)
Fixpoint put (name content : string) (entries : list (string * entry))
  : list (string * entry) :=
  match entries with
  | [] => [(name, File content)]
  | (n, e) :: rest =>
      if String.eqb n name then (n, File content) :: rest
      else (n, e) :: put name content rest
  end.

Definition write_text (how : io) (name text : string)
    (entries : list (string * entry)) : list (string * entry) * result unit :=
  match lookup name entries with
  | Some (Dir _) => (entries, Raise IsADirectoryError)
  | _ =>
      match how with
      | OpenFails => (entries, Raise OSError)
      | Written =>
          if Py.is_utf8 text then (put name text entries, Return ())
          else (put name EmptyString entries, Raise UnicodeEncodeError)
      | WriteFails n =>
          if Py.is_utf8 text
          then (put name (String.substring 0 n text) entries, Raise OSError)
          else (put name EmptyString entries, Raise UnicodeEncodeError)
      end
  end.

(** [update_readme]: the project root after the call, and how it ended. *)
Definition update_readme (how : io) (root : list (string * entry))
  : list (string * entry) * result unit :=
  match get_most_recent_comic root with
  | Return None => (root, Return ())
  | Return (Some (date, filename, image_path, title)) =>
      write_text how "README.md" (readme_content date filename image_path title) root
  | Raise e => (root, Raise e)
  | Unmodelled => (root, Unmodelled)
  end.

(** ** Sample inputs

    Concrete pages, worlds and project trees the statements below are
    evaluated on. *)

(** A page whose comic image carries the given attributes. *)
Definition comic_page (attrs : gmap string string) : node :=
  Tag "[document]" [] ∅
    [Tag "html" [] ∅
       [Tag "body" [] ∅
          [NavigableString "T-Rex"; Tag "img" ["logo"] ∅ [];
           Tag "img" ["comic"] attrs []]]].

Definition sample_attrs : gmap string string :=
  <["src" := "comics/comic2-4321.png"]> (<["title" := "A Title"]> ∅).

Definition sample_page : node := comic_page sample_attrs.

(** A world that serves [page] and [image_data] and ends its writes as told. *)
Definition serve (page : node) (image_data : string) (image_io metadata_io : io)
  : world :=
  {| fetch_webpage := λ url,
       if String.eqb url QWANTZ_BASE_URL then Some page else None;
     download_image := λ _, Some image_data;
     image_io := image_io;
     metadata_io := metadata_io |}.

Definition png_bytes : string := String "137" "PNG".

Definition strip_page : node :=
  comic_page (<["src" := "comics/strip.png"]> (<["title" := "T"]> ∅)).

Definition percent_page : node :=
  comic_page (<["src" := "comics/a%20b.png"]> (<["title" := "T"]> ∅)).

(** The extension as the specification words it: what follows the last dot
    of the last path segment of the URL, up to the first question mark. *)
Definition spec_extension (url : string) : string :=
  Py.first (Py.split "?" (Py.last (Py.split "." (Py.last (Py.split "/" url))))).

(** The title as the specification words it: what follows the marker on the
    first line that starts with it, trimmed. *)
Fixpoint spec_scan_title (lines : list string) : string :=
  match lines with
  | [] => "No title available"
  | line :: rest =>
      if String.prefix "Title:" line
      then Py.strip (String.substring 6 (String.length line - 6) line)
      else spec_scan_title rest
  end.

(** A project whose archive holds one day, with the image [strip.png] and
    the given text as [strip_metadata.txt]. *)
Definition archive_with (metadata : string) : list (string * entry) :=
  [("README.md", File "old");
   ("data", Dir [("2024-01-02",
                  Dir [("strip.png", File png_bytes);
                       ("strip_metadata.txt", File metadata)])])].

Definition marked_page : node :=
  comic_page (<["src" := "comics/strip.png"]> (<["title" := "Title: the comic"]> ∅)).

Definition marked_record : comic_data :=
  {| image_url := "https://www.qwantz.com/comics/strip.png";
     title := "Title: the comic" |}.


Definition cr_record : comic_data :=
  {| image_url := "https://www.qwantz.com/comics/strip.png";
     title := "a" +:+ Py.chr Py.CR +:+ "b" |}.

Definition plain_record : comic_data :=
  {| image_url := "https://www.qwantz.com/comics/strip.png"; title := "T" |}.

(** An archive of two days, and one whose latest directory, by name, is
    [2024-01-0[2]] and holds no image. *)
Definition two_days : list (string * entry) :=
  [("2024-01-01", Dir [("a.png", File png_bytes)]);
   ("2024-01-02", Dir [("b.png", File png_bytes)])].

Definition pattern_day : list (string * entry) :=
  [("2024-01-02", Dir [("b.png", File png_bytes)]);
   ("2024-01-0[2]", Dir [("notes.txt", File "no image")])].

Definition three_days : list (string * entry) :=
  [("2024-01-02", Dir [("b.png", File png_bytes)]);
   ("2024-01-03", Dir [("c.png", File png_bytes);
                       ("c_metadata.txt", File "Title: C")]);
   ("2024-01-01", Dir [("a.png", File png_bytes)])].

(** The condition of the specification for an empty answer: the directory
    holds no file whose name ends in [.png]. *)
Definition spec_no_image (dir : list (string * entry)) : bool :=
  forallb (λ p, negb (Py.endswith ".png" p.1 && negb (isdir p.2))) dir.

(** ** scraper.py: the daily directory *)

(** The calendar date [datetime.datetime.now()] reads off the clock. *)
Record calendar_date := CalendarDate { year : N; month : N; day : N }.

(** The dates [strftime] writes with a year of four digits. *)
Definition valid_date (d : calendar_date) : bool :=
  (1000 <=? year d)%N && (year d <=? 9999)%N &&
  (1 <=? month d)%N && (month d <=? 12)%N &&
  (1 <=? day d)%N && (day d <=? 31)%N.

(** Earlier than, or the same day as. *)
Definition date_le (a b : calendar_date) : Prop :=
  (year a < year b ∨
   (year a = year b ∧
    (month a < month b ∨ (month a = month b ∧ day a ≤ day b))))%N.

(** A number that grows with the date: YYYYMMDD. *)
Definition date_key (d : calendar_date) : N :=
  (year d * 10000 + month d * 100 + day d)%N.

(** The last decimal digit of a number, as a character. *)
Definition digit (n : N) : ascii := ascii_of_N (48 + n mod 10).

(** [strftime("%Y-%m-%d")]: the year on four digits, the month and the day
    on two, zero-padded (the padding of the year matters before the year
    1000 only). *)
Definition strftime (d : calendar_date) : string :=
  String (digit (year d / 1000)) (String (digit (year d / 100))
    (String (digit (year d / 10)) (String (digit (year d))
      (String "-" (String (digit (month d / 10)) (String (digit (month d))
        (String "-" (String (digit (day d / 10)) (Py.chr (digit (day d))))))))))).

(** What the operating system answers to the two [mkdir] calls that
    [os.makedirs] may make, for [data] and for the day: [None] when the
    call raises [OSError], otherwise the place the new directory takes in
    the listing of its parent. *)
Record mkdir_world := MkdirWorld {
  data_mkdir : option nat;
  day_mkdir : option nat
}.

(** Exceptions [os.makedirs(path, exist_ok=True)] lets through: the path is
    taken by a file, a parent is a file, a [mkdir] was refused. *)
Inductive makedirs_error := PathIsFile | ParentIsFile | MkdirRefused.

Definition insert_at {A} (pos : nat) (x : A) (l : list A) : list A :=
  take pos l ++ x :: drop pos l.

(** Replace what the first entry of that name holds. *)
Fixpoint set_entry (name : string) (e : entry) (entries : list (string * entry))
  : list (string * entry) :=
  match entries with
  | [] => []
  | (n, e') :: rest =>
      if String.eqb n name then (n, e) :: rest
      else (n, e') :: set_entry name e rest
  end.

(** [setup_daily_directory], on the entries of the project root: the root
    after [os.makedirs(data_dir, exist_ok=True)] and the exception that
    ends the call, if any.  A directory that is already there is kept. *)
Definition setup_daily_directory (os : mkdir_world) (now : calendar_date)
    (root : list (string * entry))
  : list (string * entry) * option makedirs_error :=
  let date := strftime now in
  match lookup "data" root with
  | None =>
      match data_mkdir os with
      | None => (root, Some MkdirRefused)
      | Some pos =>
          match day_mkdir os with
          | None => (insert_at pos ("data", Dir []) root, Some MkdirRefused)
          | Some _ => (insert_at pos ("data", Dir [(date, Dir [])]) root, None)
          end
      end
  | Some (File _) => (root, Some ParentIsFile)
  | Some (Dir data) =>
      match lookup date data with
      | Some (Dir _) => (root, None)
      | Some (File _) => (root, Some PathIsFile)
      | None =>
          match day_mkdir os with
          | None => (root, Some MkdirRefused)
          | Some pos =>
              (set_entry "data" (Dir (insert_at pos (date, Dir []) data)) root, None)
          end
      end
  end.

(** ** update_readme.py: the shape of a line

    [l] is the line of a text file with the body [body]: the body holds no
    line break, and the line is the body, followed by a newline unless the
    file ends there. *)
Definition line_body (l body : string) : Prop :=
  (l = body +:+ Py.nl ∨ l = body) ∧
  Py.mem Py.LF body = false ∧ Py.mem Py.CR body = false.

(** Further sample inputs. *)
Definition sample_today : calendar_date := {| year := 2024; month := 1; day := 3 |}.

Definition sample_archive : list (string * entry) :=
  [("README.md", File "old");
   ("data", Dir [("2024-01-01", Dir [("a.png", File png_bytes)]);
                 ("2024-01-02", Dir [("b.png", File png_bytes)])])].

Definition sample_os : mkdir_world := {| data_mkdir := Some 0; day_mkdir := Some 1 |}.

(** * Facts about the string primitives *)

#[local] Arguments String.append !_ _ / : simpl nomatch.
#[local] Arguments Py.is_space : simpl never.

Section StringFacts.

Implicit Types (a b c : ascii) (s t p : string).

Lemma app_assoc' s t p : (s +:+ t) +:+ p = s +:+ (t +:+ p).
Proof. induction s; simpl; congruence. Qed.

Lemma ascii_eqb_false a b : Ascii.eqb a b = false ↔ a ≠ b.
Proof. apply Ascii.eqb_neq. Qed.

Lemma mem_app c s t : Py.mem c (s +:+ t) = Py.mem c s || Py.mem c t.
Proof.
  induction s as [|a s IH]; simpl; [done|].
  by rewrite IH, orb_assoc.
Qed.

(** *** Prefixes *)

Lemma prefix_empty s : String.prefix EmptyString s = true.
Proof. by destruct s. Qed.

Lemma prefix_true p s : String.prefix p s = true ↔ ∃ r, s = p +:+ r.
Proof.
  revert s. induction p as [|a p IH]; intros s.
  - rewrite prefix_empty. split; [by exists s|done].
  - destruct s as [|b s]; simpl.
    + split; [done|]. by intros [r Hr].
    + destruct (ascii_dec a b) as [->|Hne].
      * rewrite IH. split; intros [r Hr]; exists r; congruence.
      * split; [done|]. intros [r Hr]. congruence.
Qed.

Lemma prefix_app_same p r : String.prefix p (p +:+ r) = true.
Proof. apply prefix_true. by exists r. Qed.

(** Appending one character that [p] does not hold changes no prefix test. *)
Lemma prefix_snoc c p s :
  p ≠ EmptyString → Py.mem c p = false →
  String.prefix p (s +:+ Py.chr c) = String.prefix p s.
Proof.
  revert s. induction p as [|a p IH]; intros s Hp Hc; [done|].
  simpl in Hc. apply orb_false_elim in Hc as [Hca Hcp].
  apply ascii_eqb_false in Hca.
  destruct s as [|b s]; simpl.
  - destruct (ascii_dec a c); [congruence|done].
  - destruct (ascii_dec a b); [|done].
    destruct p as [|a' p']; [by rewrite !prefix_empty|].
    by apply IH.
Qed.

(** *** [contains] and [replace] *)

Lemma contains_snoc c sub s :
  sub ≠ EmptyString → Py.mem c sub = false →
  Py.contains sub (s +:+ Py.chr c) = Py.contains sub s.
Proof.
  intros Hsub Hc. induction s as [|a s IH].
  - simpl. destruct sub as [|b sub]; [done|].
    simpl in *. apply orb_false_elim in Hc as [Hcb _].
    apply ascii_eqb_false in Hcb.
    destruct (ascii_dec b c); [congruence|done].
  - change (String a s +:+ Py.chr c) with (String a (s +:+ Py.chr c)).
    cbn [Py.contains]. rewrite IH. f_equal.
    change (String a (s +:+ Py.chr c)) with (String a s +:+ Py.chr c).
    by apply prefix_snoc.
Qed.

Lemma replace_go_absent old new s :
  Py.contains old s = false → Py.replace_go old new 0 s = s.
Proof.
  induction s as [|a s IH]; [done|].
  cbn [Py.contains Py.replace_go]. intros [Hp Hs]%orb_false_elim.
  rewrite Hp. f_equal. by apply IH.
Qed.

(** *** Lines *)

Lemma lines_first_line s rest :
  Py.mem Py.LF s = false → Py.mem Py.CR s = false →
  Py.lines (s +:+ Py.nl +:+ rest) = (s +:+ Py.nl) :: Py.lines rest.
Proof.
  induction s as [|a s IH]; intros Hlf Hcr; [done|].
  cbn [Py.mem] in Hlf, Hcr.
  apply orb_false_elim in Hlf as [Ha1 Hlf].
  apply orb_false_elim in Hcr as [Ha2 Hcr].
  rewrite Ascii.eqb_sym in Ha1. rewrite Ascii.eqb_sym in Ha2.
  change (String a s +:+ Py.nl +:+ rest) with (String a (s +:+ Py.nl +:+ rest)).
  cbn [Py.lines]. rewrite Ha1, Ha2. by rewrite IH.
Qed.

(** *** Stripping *)

Lemma is_space_elem s : Py.is_space s = true ↔ s ∈ Py.whitespace.
Proof.
  unfold Py.is_space. rewrite existsb_exists. split.
  - intros (w & Hw & Heq). apply String.eqb_eq in Heq as ->.
    by apply list_elem_of_In.
  - intros Hs. exists s. split; [by apply list_elem_of_In|apply String.eqb_refl].
Qed.

Lemma starts_with_space_intro w s :
  Py.is_space w = true → String.prefix w s = true →
  Py.starts_with_space s = true.
Proof.
  intros Hw%is_space_elem Hp. apply existsb_exists.
  exists w. split; [by apply list_elem_of_In|done].
Qed.

Lemma lstrip_id s : Py.starts_with_space s = false → Py.lstrip s = s.
Proof.
  intros Hs.
  assert (∀ w, String.prefix w s = true → Py.is_space w = false) as Hno.
  { intros w Hp. destruct (Py.is_space w) eqn:Hw; [|done].
    by rewrite (starts_with_space_intro w s) in Hs. }
  destruct s as [|a [|b [|c r]]]; cbn [Py.lstrip]; [done|..].
  - by rewrite (Hno (Py.chr a)) by (simpl; by destruct (ascii_dec a a)).
  - rewrite (Hno (Py.chr a)) by (simpl; by destruct (ascii_dec a a)).
    by rewrite (Hno (String a (Py.chr b)))
      by (simpl; destruct (ascii_dec a a); [|done]; by destruct (ascii_dec b b)).
  - rewrite (Hno (Py.chr a)) by (simpl; by destruct (ascii_dec a a)).
    rewrite (Hno (String a (Py.chr b)))
      by (simpl; destruct (ascii_dec a a); [|done]; by destruct (ascii_dec b b)).
    by rewrite (Hno (String a (String b (Py.chr c))))
      by (apply (prefix_app_same (String a (String b (Py.chr c))) r)).
Qed.

Lemma whitespace_shape :
  Forall (λ w, w = Py.nl ∨ (w ≠ EmptyString ∧ Py.mem Py.LF w = false))
    Py.whitespace.
Proof.
  vm_compute.
  repeat (constructor;
          [first [left; reflexivity | right; split; [discriminate|reflexivity]]|]).
  constructor.
Qed.

Lemma starts_with_space_snoc_nl s :
  s ≠ EmptyString →
  Py.starts_with_space (s +:+ Py.nl) = Py.starts_with_space s.
Proof.
  intros Hs. unfold Py.starts_with_space.
  induction whitespace_shape as [|w ws Hw _ IH]; [done|].
  cbn [existsb]. rewrite IH. f_equal.
  destruct Hw as [->|[Hne Hlf]].
  - destruct s as [|a s]; [done|].
    simpl. by rewrite !prefix_empty.
  - by apply prefix_snoc.
Qed.

Lemma rstrip_snoc_nl s : Py.rstrip (s +:+ Py.nl) = Py.rstrip s.
Proof. induction s as [|a s IH]; [vm_compute; reflexivity|]. simpl. by rewrite IH. Qed.

Lemma endswith_self s : Py.endswith s s = true.
Proof. destruct s; cbn [Py.endswith]; by rewrite String.eqb_refl. Qed.

Lemma rstrip_id s : Py.ends_with_space s = false → Py.rstrip s = s.
Proof.
  induction s as [|a s IH]; [done|]. intros Hs.
  assert (Py.ends_with_space s = false) as Hs'.
  { apply not_true_is_false. intros (w & Hw & He)%existsb_exists.
    apply not_true_iff_false in Hs. apply Hs, existsb_exists.
    exists w. split; [done|]. cbn [Py.endswith]. rewrite He. apply orb_true_r. }
  cbn [Py.rstrip]. rewrite (IH Hs').
  destruct (Py.is_space (String a s)) eqn:Hsp; [|done].
  apply not_true_iff_false in Hs. destruct Hs. apply existsb_exists.
  exists (String a s). split; [|apply endswith_self].
  by apply list_elem_of_In, is_space_elem.
Qed.

(** What [strip] leaves of one line of the metadata file, marker removed. *)
Lemma strip_padded s :
  Py.starts_with_space s = false → Py.ends_with_space s = false →
  Py.strip (" " +:+ s +:+ Py.nl) = s.
Proof.
  intros Hl Hr. unfold Py.strip.
  change (Py.lstrip (" " +:+ s +:+ Py.nl)) with (Py.lstrip (s +:+ Py.nl)).
  destruct (decide (s = EmptyString)) as [->|Hne]; [vm_compute; reflexivity|].
  rewrite lstrip_id by (by rewrite starts_with_space_snoc_nl).
  by rewrite rstrip_snoc_nl, rstrip_id.
Qed.

End StringFacts.

(** * Facts about splitting *)

Section SplitFacts.

Implicit Types (a c : ascii) (s t p : string).

Lemma split_not_nil c s : Py.split c s ≠ [].
Proof.
  destruct s as [|a s]; [done|]. cbn [Py.split].
  destruct (Ascii.eqb a c); [done|]. by destruct (Py.split c s).
Qed.

(** A string that holds the separator splits into two parts at least. *)
Lemma split_two c s :
  Py.mem c s = true → ∃ h1 h2 tl, Py.split c s = h1 :: h2 :: tl.
Proof.
  induction s as [|a s IH]; [done|]. cbn [Py.mem Py.split].
  rewrite Ascii.eqb_sym. destruct (Ascii.eqb a c) eqn:Hac; cbn [orb].
  - intros _. destruct (Py.split c s) as [|h tl] eqn:Hs; [by apply split_not_nil in Hs|].
    by exists EmptyString, h, tl.
  - intros (h1 & h2 & tl & ->)%IH. by exists (String a h1), h2, tl.
Qed.

(** The last part only depends on what follows the last separator. *)
Lemma last_split_app c p t :
  Py.mem c t = true →
  Py.last (Py.split c (p +:+ t)) = Py.last (Py.split c t).
Proof.
  intros Ht. induction p as [|a p IH]; [done|].
  change (String a p +:+ t) with (String a (p +:+ t)). cbn [Py.split].
  assert (Py.mem c (p +:+ t) = true) as Hpt.
  { rewrite mem_app, Ht. apply orb_true_r. }
  destruct (split_two _ _ Hpt) as (h1 & h2 & tl & Hs).
  rewrite <- IH, Hs. by destruct (Ascii.eqb a c).
Qed.

Lemma split_single c s h : Py.split c s = [h] → h = s.
Proof.
  revert h. induction s as [|a s IH]; intros h; cbn [Py.split]; [congruence|].
  destruct (Ascii.eqb a c).
  - intros [= <- Hs]. by apply split_not_nil in Hs.
  - destruct (Py.split c s) as [|h' tl] eqn:Hs; [by apply split_not_nil in Hs|].
    intros [= <- ->]. by rewrite (IH h').
Qed.

(** The last part is a tail of the string. *)
Lemma last_split_suffix c s : ∃ p, s = p +:+ Py.last (Py.split c s).
Proof.
  induction s as [|a s [p IH]]; [by exists EmptyString|].
  cbn [Py.split]. destruct (Ascii.eqb a c).
  - exists (String a p). simpl. rewrite IH at 1. f_equal. f_equal.
    destruct (Py.split c s) eqn:Hs; [by apply split_not_nil in Hs|done].
  - destruct (Py.split c s) as [|h [|h2 tl]] eqn:Hs.
    + by apply split_not_nil in Hs.
    + exists EmptyString. apply split_single in Hs as ->. done.
    + exists (String a p). simpl. by rewrite IH at 1.
Qed.

(** *** The two paths of a run differ *)

Lemma image_path_ne_metadata_path url : image_path url ≠ metadata_path url.
Proof.
  unfold image_path, metadata_path. intros H.
  by apply (inj (String.append (base_filename url))) in H.
Qed.

End SplitFacts.

(** * The scraper *)

Section SanitizerFacts.

Implicit Types (c : ascii) (s : string).

Lemma invalid_char_elem c : invalid_char c = true ↔ c ∈ INVALID_FILENAME_CHARS.
Proof.
  unfold invalid_char. rewrite existsb_exists. split.
  - intros (x & Hx & ->%Ascii.eqb_eq). by apply list_elem_of_In.
  - intros Hc. exists c. split; [by apply list_elem_of_In|apply Ascii.eqb_refl].
Qed.


Lemma filter_chars_all keep s :
  (∀ c, Py.mem c s = true → keep c = true) → Py.filter_chars keep s = s.
Proof.
  induction s as [|a s IH]; [done|]. intros H. cbn [Py.filter_chars].
  rewrite (H a) by (cbn [Py.mem]; by rewrite Ascii.eqb_refl).
  f_equal. apply IH. intros c Hc. apply H. cbn [Py.mem]. rewrite Hc. apply orb_true_r.
Qed.

End SanitizerFacts.



Section ExtractorFacts.

Lemma find_first {A} (f : A → bool) before x after :
  Forall (λ n, f n = false) before → f x = true →
  List.find f (before ++ x :: after) = Some x.
Proof.
  intros Hb Hx. induction Hb as [|y before Hy _ IH]; simpl.
  - by rewrite Hx.
  - by rewrite Hy.
Qed.

Lemma find_absent {A} (f : A → bool) l :
  Forall (λ n, f n = false) l → List.find f l = None.
Proof. intros Hl. induction Hl as [|y l Hy _ IH]; simpl; [done|by rewrite Hy]. Qed.

End ExtractorFacts.

(** C1.  Extraction fails when no node of the page is an [img] of class
    [comic], and when the first such node, in document order, has no [src]
    or an empty one.  Otherwise it succeeds: the image URL is the site
    origin followed by [src], the title is the [title] attribute, or
    ["unknown"] when the tag has none. *)
Theorem extract_comic_data_spec (soup : node) :
  (Forall (λ n, is_comic_img n = false) (descendants soup) →
   extract_comic_data soup = None) ∧
  (∀ before img after,
     descendants soup = before ++ img :: after →
     Forall (λ n, is_comic_img n = false) before →
     is_comic_img img = true →
     (get img "src" = None ∨ get img "src" = Some EmptyString →
      extract_comic_data soup = None) ∧
     (∀ src, get img "src" = Some src → src ≠ EmptyString →
        ∃ d, extract_comic_data soup = Some d ∧
             image_url d = "https://www.qwantz.com/" +:+ src ∧
             (∀ t, get img "title" = Some t → title d = t) ∧
             (get img "title" = None → title d = "unknown"))).
Proof.
  split.
  - intros Hnone. unfold extract_comic_data, find_comic_img.
    by rewrite find_absent.
  - intros before img after Hd Hb Himg.
    unfold extract_comic_data, find_comic_img.
    rewrite Hd, (find_first _ _ _ _ Hb Himg). split.
    + by intros [-> | ->].
    + intros src -> Hsrc.
      destruct (String.eqb src EmptyString) eqn:He;
        [by apply String.eqb_eq in He|].
      eexists. split; [done|]. cbn [image_url title]. split_and!; [done|..].
      * by intros t ->.
      * by intros ->.
Qed.

Lemma extract_comic_data_spec_witness :
  ∃ d, extract_comic_data sample_page = Some d ∧
       image_url d = "https://www.qwantz.com/comics/comic2-4321.png" ∧
       (∀ t, sample_attrs !! "title" = Some t → title d = t) ∧
       (sample_attrs !! "title" = None → title d = "unknown").
Proof.
  refine (proj2 (proj2 (extract_comic_data_spec sample_page)
    [Tag "html" [] ∅
       [Tag "body" [] ∅
          [NavigableString "T-Rex"; Tag "img" ["logo"] ∅ [];
           Tag "img" ["comic"] sample_attrs []]];
     Tag "body" [] ∅
       [NavigableString "T-Rex"; Tag "img" ["logo"] ∅ [];
        Tag "img" ["comic"] sample_attrs []];
     NavigableString "T-Rex"; Tag "img" ["logo"] ∅ []]
    (Tag "img" ["comic"] sample_attrs []) [] _ _ _) "comics/comic2-4321.png" _ _).
  - reflexivity.
  - repeat constructor.
  - reflexivity.
  - reflexivity.
  - discriminate.
Defined.

Section RunFacts.

Context (w : world) (cwd : gmap string string).

(** A run that answers [True] has passed every step. *)
Lemma get_current_comic_success cwd' :
  get_current_comic w cwd = (true, cwd') →
  ∃ soup data image_data,
    fetch_webpage w QWANTZ_BASE_URL = Some soup ∧
    extract_comic_data soup = Some data ∧
    download_image w (image_url data) = Some image_data ∧
    cwd' = <[metadata_path (image_url data) := metadata_text data]>
             (<[image_path (image_url data) := image_data]> cwd).
Proof.
  unfold get_current_comic, save_image, write_file.
  destruct (fetch_webpage w QWANTZ_BASE_URL) as [soup|]; [|done].
  destruct (extract_comic_data soup) as [data|] eqn:He; [|done].
  destruct (download_image w (image_url data)) as [image_data|] eqn:Hd; [|done].
  destruct (image_io w); simpl; [|done..].
  destruct (metadata_io w); simpl; [|done..].
  intros [= <-]. exists soup, data, image_data. by split_and!.
Qed.

(** A run that reaches the image write goes on as that write allows. *)
Lemma get_current_comic_writes soup data image_data :
  fetch_webpage w QWANTZ_BASE_URL = Some soup →
  extract_comic_data soup = Some data →
  download_image w (image_url data) = Some image_data →
  get_current_comic w cwd =
    match image_io w with
    | Written =>
        write_file (metadata_io w) (metadata_path (image_url data))
          (metadata_text data)
          (<[image_path (image_url data) := image_data]> cwd)
    | OpenFails => (false, cwd)
    | WriteFails n =>
        (false, <[image_path (image_url data) := String.substring 0 n image_data]> cwd)
    end.
Proof.
  intros Hf He Hd. unfold get_current_comic, save_image.
  rewrite Hf, He, Hd. by destruct (image_io w).
Qed.

End RunFacts.

Lemma metadata_text_lines d :
  metadata_text d =
  "Title: " +:+ title d +:+ Py.nl +:+ "Image URL: " +:+ image_url d +:+ Py.nl.
Proof.
  unfold metadata_text.
  change ("Title: " +:+ title d +:+ Py.nl) with ("Title: " +:+ (title d +:+ Py.nl)).
  by rewrite !app_assoc'.
Qed.

(** C2.  After a run that answers [True], for the record {image_url, title}
    it extracted and the bytes it downloaded: the file
    [<base_filename>.<extension>] holds exactly those bytes, and
    [<base_filename>_metadata.txt] holds exactly the two lines
    [Title: <title>] and [Image URL: <image_url>], each ended by a newline. *)
Theorem archive_round_trip (w : world) (cwd cwd' : gmap string string) :
  get_current_comic w cwd = (true, cwd') →
  ∃ soup data image_data,
    fetch_webpage w QWANTZ_BASE_URL = Some soup ∧
    extract_comic_data soup = Some data ∧
    download_image w (image_url data) = Some image_data ∧
    cwd' !! (base_filename (image_url data) +:+ "." +:+
             get_file_extension (image_url data)) = Some image_data ∧
    cwd' !! (base_filename (image_url data) +:+ "_metadata.txt") =
      Some ("Title: " +:+ title data +:+ Py.nl +:+
            "Image URL: " +:+ image_url data +:+ Py.nl).
Proof.
  intros (soup & data & image_data & Hf & He & Hd & ->)%get_current_comic_success.
  exists soup, data, image_data. split_and!; [done..| |].
  - rewrite lookup_insert_ne by (symmetry; apply image_path_ne_metadata_path).
    apply lookup_insert_eq.
  - rewrite <- metadata_text_lines. apply lookup_insert_eq.
Qed.

Lemma archive_round_trip_witness :
  ∃ soup data image_data,
    fetch_webpage (serve strip_page png_bytes Written Written) QWANTZ_BASE_URL
      = Some soup ∧
    extract_comic_data soup = Some data ∧
    download_image (serve strip_page png_bytes Written Written) (image_url data)
      = Some image_data ∧
    ({[ "strip.png" := png_bytes;
        "strip_metadata.txt" :=
          "Title: T" +:+ Py.nl +:+
          "Image URL: https://www.qwantz.com/comics/strip.png" +:+ Py.nl ]}
       : gmap string string)
      !! (base_filename (image_url data) +:+ "." +:+
          get_file_extension (image_url data)) = Some image_data ∧
    ({[ "strip.png" := png_bytes;
        "strip_metadata.txt" :=
          "Title: T" +:+ Py.nl +:+
          "Image URL: https://www.qwantz.com/comics/strip.png" +:+ Py.nl ]}
       : gmap string string)
      !! (base_filename (image_url data) +:+ "_metadata.txt") =
      Some ("Title: " +:+ title data +:+ Py.nl +:+
            "Image URL: " +:+ image_url data +:+ Py.nl).
Proof.
  apply (archive_round_trip (serve strip_page png_bytes Written Written) ∅).
  vm_compute. reflexivity.
Defined.

(** C5.  When the image write fails the run answers [False] and leaves
    every file but the image file as it was, the metadata file among them:
    the metadata is written only after the image has been.  So a run that
    touches the metadata file has stored the whole image beside it. *)
Theorem image_failure_skips_metadata
    (w : world) (cwd : gmap string string) soup data image_data :
  fetch_webpage w QWANTZ_BASE_URL = Some soup →
  extract_comic_data soup = Some data →
  download_image w (image_url data) = Some image_data →
  (image_io w ≠ Written →
     (get_current_comic w cwd).1 = false ∧
     (get_current_comic w cwd).2 !! metadata_path (image_url data)
       = cwd !! metadata_path (image_url data) ∧
     ∀ p, p ≠ image_path (image_url data) →
          (get_current_comic w cwd).2 !! p = cwd !! p) ∧
  ((get_current_comic w cwd).2 !! metadata_path (image_url data)
     ≠ cwd !! metadata_path (image_url data) →
     image_io w = Written ∧
     (get_current_comic w cwd).2 !! image_path (image_url data) = Some image_data).
Proof.
  intros Hf He Hd. rewrite (get_current_comic_writes w cwd _ _ _ Hf He Hd).
  pose proof (image_path_ne_metadata_path (image_url data)) as Hne.
  destruct (image_io w) as [| |n]; cbn [fst snd].
  - split; [done|]. intros _. split; [done|].
    destruct (metadata_io w); cbn [write_file snd];
      rewrite ?lookup_insert_ne by done; apply lookup_insert_eq.
  - split; [|done]. intros _. by split_and!.
  - split.
    + intros _. split_and!; [done|by rewrite lookup_insert_ne|].
      intros p Hp. by rewrite lookup_insert_ne.
    + rewrite lookup_insert_ne by done. done.
Qed.

Lemma image_failure_skips_metadata_witness :
  (get_current_comic (serve strip_page png_bytes OpenFails Written) ∅).1 = false ∧
  (get_current_comic (serve strip_page png_bytes OpenFails Written) ∅).2
    !! metadata_path (image_url plain_record)
    = (∅ : gmap string string) !! metadata_path (image_url plain_record) ∧
  ∀ p, p ≠ image_path (image_url plain_record) →
       (get_current_comic (serve strip_page png_bytes OpenFails Written) ∅).2 !! p
       = (∅ : gmap string string) !! p.
Proof.
  apply (proj1 (image_failure_skips_metadata
                  (serve strip_page png_bytes OpenFails Written) ∅ strip_page
                  plain_record png_bytes eq_refl eq_refl eq_refl)).
  discriminate.
Defined.

(** C8, as the specification states it, fails: the run below stores its two
    files under the name taken from the URL, [%] included, which is not
    what [sanitize_filename] makes of that name, nor of the whole last
    segment; no file appears under a sanitized name. *)
Lemma base_filename_sanitized_counterexample :
  extract_comic_data percent_page
    = Some {| image_url := "https://www.qwantz.com/comics/a%20b.png"; title := "T" |} ∧
  base_filename "https://www.qwantz.com/comics/a%20b.png"
    ≠ sanitize_filename (base_filename "https://www.qwantz.com/comics/a%20b.png") ∧
  base_filename "https://www.qwantz.com/comics/a%20b.png"
    ≠ sanitize_filename (image_filename "https://www.qwantz.com/comics/a%20b.png") ∧
  get_current_comic (serve percent_page png_bytes Written Written) ∅
    = (true,
       {[ "a%20b.png" := png_bytes;
          "a%20b_metadata.txt" :=
            "Title: T" +:+ Py.nl +:+
            "Image URL: https://www.qwantz.com/comics/a%20b.png" +:+ Py.nl ]}) ∧
  (get_current_comic (serve percent_page png_bytes Written Written) ∅).2
    !! "a20b.png" = None ∧
  (get_current_comic (serve percent_page png_bytes Written Written) ∅).2
    !! "a20b_metadata.txt" = None.
Proof.
  split_and!; try (vm_compute; reflexivity); vm_compute; discriminate.
Qed.

(** C8, amended.  After a run that answers [True] the image file and the
    metadata file are stored under one and the same base name: the last
    [/]-separated segment of the image URL, cut at its last dot and used as
    it is.  That name is its own sanitized form when it holds none of the
    forbidden characters. *)
Theorem base_filename_shared (w : world) (cwd cwd' : gmap string string) :
  get_current_comic w cwd = (true, cwd') →
  ∃ soup data base,
    fetch_webpage w QWANTZ_BASE_URL = Some soup ∧
    extract_comic_data soup = Some data ∧
    base = Py.first (Py.rsplit1 "." (Py.last (Py.split "/" (image_url data)))) ∧
    is_Some (cwd' !! (base +:+ "." +:+ get_file_extension (image_url data))) ∧
    is_Some (cwd' !! (base +:+ "_metadata.txt")) ∧
    ((∀ c, c ∈ INVALID_FILENAME_CHARS → Py.mem c base = false) →
     sanitize_filename base = base).
Proof.
  intros (soup & data & image_data & Hf & He & Hd & ->)%get_current_comic_success.
  exists soup, data, (base_filename (image_url data)). split_and!; [done..| | |].
  - rewrite lookup_insert_ne by (symmetry; apply image_path_ne_metadata_path).
    eexists. apply lookup_insert_eq.
  - eexists. apply lookup_insert_eq.
  - intros Hc. apply filter_chars_all. intros c Hm.
    destruct (invalid_char c) eqn:Hi; [|done].
    apply invalid_char_elem, Hc in Hi. congruence.
Qed.

Lemma base_filename_shared_witness :
  ∃ soup data base,
    fetch_webpage (serve percent_page png_bytes Written Written) QWANTZ_BASE_URL
      = Some soup ∧
    extract_comic_data soup = Some data ∧
    base = Py.first (Py.rsplit1 "." (Py.last (Py.split "/" (image_url data)))) ∧
    is_Some ((get_current_comic (serve percent_page png_bytes Written Written) ∅).2
               !! (base +:+ "." +:+ get_file_extension (image_url data))) ∧
    is_Some ((get_current_comic (serve percent_page png_bytes Written Written) ∅).2
               !! (base +:+ "_metadata.txt")) ∧
    ((∀ c, c ∈ INVALID_FILENAME_CHARS → Py.mem c base = false) →
     sanitize_filename base = base).
Proof.
  apply (base_filename_shared (serve percent_page png_bytes Written Written) ∅).
  vm_compute. reflexivity.
Defined.

Section ExtensionFacts.

(** Where the last path segment holds a dot, the extension the code
    derives from the whole URL is the one of that segment. *)
Lemma get_file_extension_dotted url :
  Py.mem "." (image_filename url) = true →
  get_file_extension url = spec_extension url.
Proof.
  intros Hdot. unfold get_file_extension, spec_extension.
  destruct (last_split_suffix "/" url) as [p Hp].
  fold (image_filename url) in *.
  rewrite Hp at 1. by rewrite last_split_app.
Qed.

End ExtensionFacts.

(** C6.  On a URL that ends in [/foo.png?cache=1] the extension is [png]
    and the base file name is [foo].  On a URL whose last path segment has
    no dot, the code splits the whole URL: it takes what follows the dot of
    the host name for the extension, path separators included, where the
    words of the specification give a part of the last segment. *)
Theorem get_file_extension_whole_url :
  (∀ p, get_file_extension (p +:+ "/foo.png?cache=1") = "png" ∧
        base_filename (p +:+ "/foo.png?cache=1") = "foo") ∧
  get_file_extension "https://www.qwantz.com/comics/foo" = "com/comics/foo" ∧
  spec_extension "https://www.qwantz.com/comics/foo" = "foo" ∧
  image_path "https://www.qwantz.com/comics/foo" = "foo.com/comics/foo".
Proof.
  split_and!; [|by vm_compute..].
  intros p. unfold get_file_extension, base_filename, image_filename.
  by rewrite !last_split_app.
Qed.

(** * The README updater *)

Section OrderFacts.

Implicit Types (a b c : list N) (s t : string).

Lemma codepoints_leb_total a b :
  Py.codepoints_leb a b = false → Py.codepoints_leb b a = true.
Proof.
  revert b. induction a as [|x a IH]; intros [|y b]; cbn [Py.codepoints_leb];
    [done..|].
  intros [Hlt Heq]%orb_false_elim. apply N.ltb_ge in Hlt.
  destruct (N.eqb_spec x y) as [->|Hne].
  - cbn [andb] in Heq. rewrite (IH b Heq), N.eqb_refl. apply orb_true_r.
  - apply orb_true_iff. left. apply N.ltb_lt. lia.
Qed.

Lemma codepoints_leb_trans a b c :
  Py.codepoints_leb a b = true → Py.codepoints_leb b c = true →
  Py.codepoints_leb a c = true.
Proof.
  revert b c. induction a as [|x a IH]; intros [|y b] [|z c];
    cbn [Py.codepoints_leb]; try done.
  rewrite !orb_true_iff, !andb_true_iff, !N.ltb_lt, !N.eqb_eq.
  intros [Hxy|[-> Hab]] [Hyz|[-> Hbc]]; [left; lia|by left|by left|].
  right. split; [done|]. by apply (IH b c).
Qed.

(** An ASCII character is a code point of its own. *)
Lemma fsdecode_ascii_head x s :
  (Py.byte x <? 0x80)%N = true →
  Py.fsdecode (String x s) = Py.byte x :: Py.fsdecode s.
Proof. intros H. cbn [Py.fsdecode]. by rewrite H. Qed.

(** On ASCII names the order of [str] is the order of the bytes. *)
Lemma name_leb_ascii s t :
  Py.is_ascii s = true → Py.is_ascii t = true →
  Py.name_leb s t = String.leb s t.
Proof.
  unfold Py.name_leb, String.leb. revert t.
  induction s as [|x s IH]; intros [|y t]; cbn [Py.is_ascii]; [done..| | |].
  - intros _ [Hy _]%andb_prop. by rewrite fsdecode_ascii_head.
  - intros [Hx _]%andb_prop _. by rewrite fsdecode_ascii_head.
  - intros [Hx Hs]%andb_prop [Hy Ht]%andb_prop.
    rewrite !fsdecode_ascii_head by done.
    cbn [Py.codepoints_leb String.compare]. unfold Ascii.compare.
    fold (Py.byte x) (Py.byte y). rewrite (IH t Hs Ht).
    destruct (N.compare_spec (Py.byte x) (Py.byte y)) as [Heq|Hlt|Hgt].
    + rewrite Heq, N.ltb_irrefl, N.eqb_refl. done.
    + by rewrite (proj2 (N.ltb_lt _ _) Hlt).
    + rewrite (proj2 (N.ltb_ge _ _)) by lia.
      by rewrite (proj2 (N.eqb_neq _ _)) by lia.
Qed.

(** An ASCII name that is a least upper bound in one order and a lower
    bound in the other is the name itself. *)
Lemma name_leb_ascii_anti s t :
  Py.is_ascii s = true →
  Py.name_leb s t = true → (t ≤ s)%string → t = s.
Proof.
  unfold Py.name_leb, String.le, String.leb. revert t.
  induction s as [|x s IH]; intros [|y t]; cbn [Py.is_ascii]; [done..| |].
  - intros [Hx _]%andb_prop. by rewrite fsdecode_ascii_head.
  - intros [Hx Hs]%andb_prop. rewrite (fsdecode_ascii_head x) by done.
    cbn [String.compare]. unfold Ascii.compare. fold (Py.byte x) (Py.byte y).
    apply N.ltb_lt in Hx.
    destruct (N.compare_spec (Py.byte y) (Py.byte x)) as [Heq|Hlt|Hgt];
      [| |done].
    + rewrite fsdecode_ascii_head by (apply N.ltb_lt; lia).
      cbn [Py.codepoints_leb]. rewrite Heq, N.ltb_irrefl, N.eqb_refl.
      cbn [orb andb]. intros Hle Hge.
      assert (y = x) as ->.
      { unfold Py.byte in Heq.
        by rewrite <- (ascii_N_embedding y), <- (ascii_N_embedding x), Heq. }
      f_equal. by apply IH.
    + rewrite fsdecode_ascii_head by (apply N.ltb_lt; lia).
      cbn [Py.codepoints_leb].
      rewrite (proj2 (N.ltb_ge _ _)) by lia.
      by rewrite (proj2 (N.eqb_neq _ _)) by lia.
Qed.

End OrderFacts.

Section SortFacts.

Implicit Types (x y : string) (l : list string).

Lemma insert_desc_perm x l : insert_desc x l ≡ₚ x :: l.
Proof.
  induction l as [|y l IH]; [done|]. cbn [insert_desc].
  destruct (Py.name_leb y x); [done|]. rewrite IH. apply Permutation_swap.
Qed.

Lemma sorted_reverse_perm l : sorted_reverse l ≡ₚ l.
Proof.
  induction l as [|x l IH]; [done|]. cbn [sorted_reverse foldr].
  fold (sorted_reverse l). by rewrite insert_desc_perm, IH.
Qed.

Lemma insert_desc_sorted x l :
  StronglySorted desc l → StronglySorted desc (insert_desc x l).
Proof.
  induction 1 as [|y l Hl IH Hy]; cbn [insert_desc].
  - repeat constructor.
  - destruct (Py.name_leb y x) eqn:Hyx.
    + constructor; [by constructor|]. constructor; [exact Hyx|].
      eapply Forall_impl; [exact Hy|]. intros z Hz. unfold desc in *.
      by apply (codepoints_leb_trans _ (Py.fsdecode y)).
    + constructor; [done|]. rewrite insert_desc_perm. constructor; [|done].
      by apply codepoints_leb_total.
Qed.

Lemma sorted_reverse_sorted l : StronglySorted desc (sorted_reverse l).
Proof.
  induction l as [|x l IH]; [constructor|]. by apply insert_desc_sorted.
Qed.

(** The head of the sorted list is a greatest name. *)
Lemma sorted_reverse_head l x rest :
  sorted_reverse l = x :: rest →
  x ∈ l ∧ ∀ y, y ∈ l → Py.name_leb y x = true.
Proof.
  intros Hs. pose proof (sorted_reverse_sorted l) as Hsorted.
  pose proof (sorted_reverse_perm l) as Hperm. rewrite Hs in Hsorted, Hperm.
  split.
  - rewrite <- Hperm. by left.
  - intros y Hy. rewrite <- Hperm in Hy.
    apply elem_of_cons in Hy as [->|Hy].
    + destruct (Py.name_leb x x) eqn:Hxx; [done|].
      pose proof (codepoints_leb_total _ _ Hxx) as Hxx'.
      unfold Py.name_leb in Hxx. congruence.
    + apply StronglySorted_inv in Hsorted as [_ Hall].
      by apply (proj1 (Forall_forall _ _) Hall).
Qed.

End SortFacts.

Section ResolverFacts.

Implicit Types (root data dir : list (string * entry)).


Lemma lookup_put_ne name name' content dir :
  name ≠ name' → lookup name' (put name content dir) = lookup name' dir.
Proof.
  intros Hne. induction dir as [|[n e] dir IH]; cbn [put lookup].
  - by rewrite (proj2 (String.eqb_neq name name')).
  - destruct (String.eqb n name) eqn:Hn; cbn [lookup].
    + apply String.eqb_eq in Hn as ->.
      by rewrite (proj2 (String.eqb_neq name name')).
    + by rewrite IH.
Qed.

Lemma lookup_put_eq name content dir :
  lookup name (put name content dir) = Some (File content).
Proof.
  induction dir as [|[n e] dir IH]; cbn [put lookup].
  - by rewrite String.eqb_refl.
  - destruct (String.eqb n name) eqn:Hn; cbn [lookup]; by rewrite Hn.
Qed.

(** The resolver reads the [data] entry of the project root only. *)
Lemma get_most_recent_comic_data root root' :
  lookup "data" root' = lookup "data" root →
  get_most_recent_comic root' = get_most_recent_comic root.
Proof. intros H. unfold get_most_recent_comic. by rewrite H. Qed.

(** A name free of pattern characters is searched as the directory it
    names. *)
Lemma glob_most_recent_plain data dir date :
  has_magic date = false →
  glob_most_recent data dir date = map (pair date) (glob_png dir).
Proof. intros H. unfold glob_most_recent. by rewrite H. Qed.

(** Opening the metadata file yields the title read from it, or raises. *)
Lemma open_metadata_title_inv dir name t :
  open_metadata_title dir name = Return t → read_metadata_title dir name = Return t.
Proof.
  unfold open_metadata_title.
  destruct (lookup name dir) as [[content|]|]; [|done..].
  by destruct (decode_raises content).
Qed.

Lemma open_metadata_title_modelled dir name :
  open_metadata_title dir name ≠ Unmodelled.
Proof.
  unfold open_metadata_title, read_metadata_title.
  destruct (lookup name dir) as [[content|]|]; [|done..].
  by destruct (decode_raises content).
Qed.

(** Every call of the resolver is described. *)
Lemma get_most_recent_comic_modelled root :
  get_most_recent_comic root ≠ Unmodelled.
Proof.
  unfold get_most_recent_comic.
  destruct (lookup "data" root) as [[|data]|]; [done| |done].
  destruct (sorted_reverse (subdirectories data)) as [|d rest]; [done|].
  destruct (lookup d data) as [[|dir]|]; [done| |done].
  destruct (glob_most_recent data dir d) as [|[found_in image_name] ?]; [done|].
  pose proof (open_metadata_title_modelled dir (stem image_name +:+ "_metadata.txt")).
  by destruct (open_metadata_title _ _).
Qed.

(** What a found entry is made of. *)
Lemma get_most_recent_comic_inv root date name path title :
  get_most_recent_comic root = Return (Some (date, name, path, title)) →
  ∃ data rest dir found_in image_name others,
    lookup "data" root = Some (Dir data) ∧
    sorted_reverse (subdirectories data) = date :: rest ∧
    lookup date data = Some (Dir dir) ∧
    glob_most_recent data dir date = (found_in, image_name) :: others ∧
    name = stem image_name ∧
    path = Py.replace " " "%20" ("data/" +:+ found_in +:+ "/" +:+ image_name) ∧
    read_metadata_title dir (stem image_name +:+ "_metadata.txt") = Return title.
Proof.
  unfold get_most_recent_comic.
  destruct (lookup "data" root) as [[|data]|] eqn:Hdata; [done| |done].
  destruct (sorted_reverse (subdirectories data)) as [|d rest] eqn:Hs; [done|].
  destruct (lookup d data) as [[|dir]|] eqn:Hdir; [done| |done].
  destruct (glob_most_recent data dir d) as [|[found_in image_name] others]
    eqn:Hglob; [done|].
  destruct (open_metadata_title _ _) as [t|e|] eqn:Ht; [|done..].
  intros [= -> <- <- ->]. apply open_metadata_title_inv in Ht.
  by exists data, rest, dir, found_in, image_name, others.
Qed.

End ResolverFacts.

(** C3.  The archive holds the directory [2024-01-02] with the image
    [b.png] and the directory [2024-01-0[2]] without an image.  The
    resolver lists both, puts the names in descending order and selects
    the first, [2024-01-0[2]].  That directory holds no [png] file, which
    by the words of the specification means no comic; yet the answer is
    not [None]: [glob] reads the name as a pattern, which [2024-01-02]
    matches, and the resolver returns the image of that directory under
    the date selected.  Nor does [glob] tell a file from a directory: a
    directory named [x.png] inside the selected directory is taken for
    the image, where it holds no such file.  On names without pattern
    characters and directories whose images are files the answer is
    the one expected: of the days 2024-01-01 and 2024-01-02, and of three
    days listed in any order, the latest is selected; a file among the
    directories is passed over, however its name sorts; the answer is
    [None] when the latest directory has no image and when the archive
    has no directory. *)
Theorem latest_directory_read_as_pattern :
  subdirectories pattern_day = ["2024-01-02"; "2024-01-0[2]"] ∧
  sorted_reverse (subdirectories pattern_day) = ["2024-01-0[2]"; "2024-01-02"] ∧
  lookup "2024-01-0[2]" pattern_day = Some (Dir [("notes.txt", File "no image")]) ∧
  spec_no_image [("notes.txt", File "no image")] = true ∧
  glob_png [("notes.txt", File "no image")] = [] ∧
  get_most_recent_comic [("data", Dir pattern_day)] =
    Return (Some ("2024-01-0[2]", "b", "data/2024-01-02/b.png",
                  "No title available")) ∧
  get_most_recent_comic [("data", Dir pattern_day)] ≠ Return None ∧
  spec_no_image [("x.png", Dir [])] = true ∧
  get_most_recent_comic [("data", Dir [("2024-01-02", Dir [("x.png", Dir [])])])] =
    Return (Some ("2024-01-02", "x", "data/2024-01-02/x.png",
                  "No title available")) ∧
  get_most_recent_comic [("data", Dir two_days)] =
    Return (Some ("2024-01-02", "b", "data/2024-01-02/b.png",
                  "No title available")) ∧
  get_most_recent_comic [("data", Dir three_days)] =
    Return (Some ("2024-01-03", "c", "data/2024-01-03/c.png", "C")) ∧
  get_most_recent_comic
    [("data", Dir [("2024-01-03", File "a file");
                   ("2024-01-01", Dir [("a.png", File png_bytes)]);
                   ("2024-01-02", Dir [("notes.txt", File "no image")])])] =
    Return None ∧
  get_most_recent_comic [("data", Dir [("notes.txt", File "a file")])] = Return None.
Proof.
  split_and!; try (vm_compute; reflexivity). vm_compute. discriminate.
Qed.

Section TitleFacts.

Implicit Types (t : string) (lines : list string).

(** Removing the marker from a line that holds it once, at its start. *)
Lemma replace_marker_once t :
  Py.contains "Title:" t = false →
  Py.replace "Title:" EmptyString ("Title:" +:+ t) = t.
Proof.
  intros Ht. unfold Py.replace. simpl.
  destruct t as [|a t]; [done|]. by apply replace_go_absent.
Qed.

Lemma scan_title_no_marker lines :
  Forall (λ l, String.prefix "Title:" l = false) lines →
  scan_title lines = "No title available".
Proof. induction 1 as [|l lines Hl _ IH]; cbn [scan_title]; [done|by rewrite Hl]. Qed.

(** Where the marker does not occur again on the first line that starts
    with it, the title is what follows the marker, trimmed. *)
Lemma scan_title_marker_once before t after :
  Forall (λ l, String.prefix "Title:" l = false) before →
  Py.contains "Title:" t = false →
  scan_title (before ++ ("Title:" +:+ t) :: after) = Py.strip t.
Proof.
  intros Hb Ht. induction Hb as [|l before Hl _ IH].
  - cbn [app scan_title]. rewrite prefix_app_same. by rewrite replace_marker_once.
  - cbn [app scan_title]. by rewrite Hl.
Qed.

Lemma read_metadata_title_absent dir name :
  lookup name dir = None → read_metadata_title dir name = Return "No title available".
Proof. intros H. unfold read_metadata_title. by rewrite H. Qed.

(** The title read back from the text [get_current_comic] writes. *)
Lemma scan_title_metadata_text d :
  Py.starts_with_space (title d) = false →
  Py.ends_with_space (title d) = false →
  Py.mem Py.LF (title d) = false →
  Py.mem Py.CR (title d) = false →
  Py.contains "Title:" (title d) = false →
  scan_title (Py.lines (metadata_text d)) = title d.
Proof.
  intros Hl Hr Hlf Hcr Hm. unfold metadata_text.
  change ("Title: " +:+ title d +:+ Py.nl)
    with ("Title: " +:+ (title d +:+ Py.nl)).
  rewrite <- (app_assoc' "Title: " (title d) Py.nl), app_assoc'.
  rewrite lines_first_line
    by (rewrite mem_app; (rewrite Hlf || rewrite Hcr); reflexivity).
  change (("Title: " +:+ title d) +:+ Py.nl)
    with ("Title:" +:+ (" " +:+ title d +:+ Py.nl)).
  assert (Py.contains "Title:" (" " +:+ title d +:+ Py.nl) = false) as Hm'.
  { change (" " +:+ title d +:+ Py.nl) with (String " " (title d +:+ Py.nl)).
    cbn [Py.contains]. change Py.nl with (Py.chr Py.LF).
    by rewrite contains_snoc, Hm. }
  rewrite (scan_title_marker_once [] _ _ (Forall_nil_2 _) Hm' : scan_title (_ :: _) = _).
  by apply strip_padded.
Qed.

End TitleFacts.

(** C7.  A comic titled [Title: the comic] is archived with the line
    [Title: Title: the comic]; the resolver finds the line and removes the
    marker wherever it stands, so that its title is [the comic], where what
    follows the marker, trimmed, is the title that was stored. *)
Theorem title_marker_removed_everywhere :
  extract_comic_data marked_page = Some marked_record ∧
  (get_current_comic (serve marked_page png_bytes Written Written) ∅).2
    !! "strip_metadata.txt" = Some (metadata_text marked_record) ∧
  metadata_text marked_record =
    "Title: Title: the comic" +:+ Py.nl +:+
    "Image URL: https://www.qwantz.com/comics/strip.png" +:+ Py.nl ∧
  get_most_recent_comic (archive_with (metadata_text marked_record)) =
    Return (Some ("2024-01-02", "strip", "data/2024-01-02/strip.png", "the comic")) ∧
  spec_scan_title (Py.lines (metadata_text marked_record)) = "Title: the comic".
Proof. split_and!; vm_compute; reflexivity. Qed.

(** C9.  When the resolver answers [None] the project root, [README.md]
    included, is left as it was.  When it answers an entry, the call ends
    well exactly if the file can be written: the write goes through,
    [README.md] is no directory and the text can be encoded.  [README.md]
    then holds the heading, the date, the link to the image, the title and
    the closing note of the template, each followed by an empty line, and
    nothing of what it held before; no other entry of the root changes.
    The entry found does not depend on what [README.md] held.  When the
    resolver raises, as it does on a metadata file that is not UTF-8,
    nothing is written. *)
Theorem update_readme_frame (how : io) (root : list (string * entry)) :
  (get_most_recent_comic root = Return None →
   update_readme how root = (root, Return ())) ∧
  (∀ date name path title,
     get_most_recent_comic root = Return (Some (date, name, path, title)) →
     let text :=
       "# Dinosaur Comics Daily" +:+ Py.nl +:+ Py.nl +:+
       "#### " +:+ date +:+ Py.nl +:+ Py.nl +:+
       "![" +:+ name +:+ "](" +:+ path +:+ ")" +:+ Py.nl +:+ Py.nl +:+
       "**" +:+ title +:+ "**" +:+ Py.nl +:+ Py.nl +:+
       "---" +:+ Py.nl +:+ Py.nl +:+
       "*This README is automatically updated with the latest Dinosaur Comics comic.*"
       +:+ Py.nl in
     ((update_readme how root).2 = Return () ↔
      how = Written ∧
      (∀ entries, lookup "README.md" root ≠ Some (Dir entries)) ∧
      Py.is_utf8 text = true) ∧
     ((update_readme how root).2 = Return () →
      lookup "README.md" (update_readme how root).1 = Some (File text) ∧
      ∀ other, other ≠ "README.md" →
               lookup other (update_readme how root).1 = lookup other root)) ∧
  (∀ old, get_most_recent_comic (put "README.md" old root) = get_most_recent_comic root) ∧
  (∀ e, get_most_recent_comic root = Raise e → update_readme how root = (root, Raise e)).
Proof.
  split_and!; [| | |intros e H; unfold update_readme; by rewrite H].
  - intros H. unfold update_readme. by rewrite H.
  - intros date name path title H text. unfold update_readme. rewrite H.
    change (readme_content date name path title) with text.
    unfold write_text. split.
    + destruct (lookup "README.md" root) as [[old|entries]|] eqn:Hl;
        destruct how, (Py.is_utf8 text); cbn [snd]; split;
        try done; try (by intros (? & ? & ?));
        try (by intros (_ & Hfile & _); destruct (Hfile entries)).
    + destruct (lookup "README.md" root) as [[old|entries]|] eqn:Hl;
        destruct how, (Py.is_utf8 text); cbn [fst snd]; try done;
        intros _; (split; [apply lookup_put_eq|]);
        intros other Hother; by apply lookup_put_ne.
  - intros old. apply get_most_recent_comic_data. by apply lookup_put_ne.
Qed.

Lemma update_readme_frame_witness :
  update_readme Written [("README.md", File "old"); ("data", Dir [])]
    = ([("README.md", File "old"); ("data", Dir [])], Return ()) ∧
  lookup "README.md"
    (update_readme Written (archive_with (metadata_text plain_record))).1 =
    Some (File ("# Dinosaur Comics Daily" +:+ Py.nl +:+ Py.nl +:+
                "#### 2024-01-02" +:+ Py.nl +:+ Py.nl +:+
                "![strip](data/2024-01-02/strip.png)" +:+ Py.nl +:+ Py.nl +:+
                "**T**" +:+ Py.nl +:+ Py.nl +:+
                "---" +:+ Py.nl +:+ Py.nl +:+
                "*This README is automatically updated with the latest Dinosaur Comics comic.*"
                +:+ Py.nl)) ∧
  (∀ other, other ≠ "README.md" →
     lookup other (update_readme Written (archive_with (metadata_text plain_record))).1
     = lookup other (archive_with (metadata_text plain_record))) ∧
  update_readme Written (archive_with ("Title: caf" +:+ String "195" EmptyString))
    = (archive_with ("Title: caf" +:+ String "195" EmptyString),
       Raise UnicodeDecodeError).
Proof.
  split.
  - apply (proj1 (update_readme_frame Written _)). reflexivity.
  - pose proof (proj2 (proj1 (proj2 (update_readme_frame Written
                  (archive_with (metadata_text plain_record))))
                  "2024-01-02" "strip" "data/2024-01-02/strip.png" "T"
                  ltac:(vm_compute; reflexivity))
                  ltac:(vm_compute; reflexivity)) as [Htext Hothers].
    split; [exact Htext|]. split; [exact Hothers|].
    apply (proj2 (proj2 (proj2 (update_readme_frame Written _)))).
    vm_compute. reflexivity.
Defined.




(** * Further properties of the scraper *)

Section SanitizerAlgebra.

Implicit Types (c : ascii) (s t : string).

Lemma filter_chars_app keep s t :
  Py.filter_chars keep (s +:+ t)
  = Py.filter_chars keep s +:+ Py.filter_chars keep t.
Proof.
  induction s as [|a s IH]; [done|]. simpl.
  destruct (keep a); simpl; by rewrite IH.
Qed.

Lemma mem_filter_chars_iff keep c s :
  Py.mem c (Py.filter_chars keep s) = Py.mem c s && keep c.
Proof.
  induction s as [|a s IH]; [done|]. cbn [Py.filter_chars Py.mem].
  destruct (keep a) eqn:Ha; cbn [Py.mem]; rewrite IH.
  - destruct (Ascii.eqb c a) eqn:Hca; [|done].
    apply Ascii.eqb_eq in Hca. subst a. by rewrite Ha.
  - destruct (Ascii.eqb c a) eqn:Hca; [|done].
    apply Ascii.eqb_eq in Hca. subst a. by rewrite Ha, andb_false_r.
Qed.

Lemma filter_chars_length keep s :
  String.length (Py.filter_chars keep s) ≤ String.length s.
Proof.
  induction s as [|a s IH]; [done|]. cbn [Py.filter_chars].
  destruct (keep a); simpl; lia.
Qed.

Lemma filter_chars_same_length keep s :
  String.length (Py.filter_chars keep s) = String.length s →
  Py.filter_chars keep s = s.
Proof.
  induction s as [|a s IH]; [done|]. cbn [Py.filter_chars].
  destruct (keep a); simpl.
  - intros [= H]. by rewrite IH.
  - pose proof (filter_chars_length keep s). lia.
Qed.

End SanitizerAlgebra.

(** X1.  Sanitizing a concatenation is concatenating the sanitized parts: a
    name can be sanitized piece by piece. *)
Theorem sanitize_filename_app (x y : string) :
  sanitize_filename (x +:+ y) = sanitize_filename x +:+ sanitize_filename y.
Proof. apply filter_chars_app. Qed.

(** X2.  The sanitized name holds exactly the characters of the name that
    are not forbidden; it is never longer than the name, and it has the
    length of the name only when nothing was removed. *)
Theorem sanitize_filename_keeps (x : string) :
  (∀ c, Py.mem c (sanitize_filename x) = Py.mem c x && negb (invalid_char c)) ∧
  String.length (sanitize_filename x) ≤ String.length x ∧
  (String.length (sanitize_filename x) = String.length x → sanitize_filename x = x).
Proof.
  split_and!.
  - intros c. apply mem_filter_chars_iff.
  - apply filter_chars_length.
  - apply filter_chars_same_length.
Qed.

Lemma sanitize_filename_keeps_witness :
  sanitize_filename "comic2-4321" = "comic2-4321".
Proof.
  apply (proj2 (proj2 (sanitize_filename_keeps "comic2-4321"))). reflexivity.
Defined.

Section NameFacts.

Implicit Types (a c : ascii) (s t p : string).

Lemma append_empty_r s : s +:+ EmptyString = s.
Proof. induction s; simpl; congruence. Qed.

Lemma split_absent c s : Py.mem c s = false → Py.split c s = [s].
Proof.
  induction s as [|a s IH]; [done|]. cbn [Py.mem Py.split].
  rewrite Ascii.eqb_sym. intros [Ha Hs]%orb_false_elim.
  by rewrite Ha, (IH Hs).
Qed.

(** The first part of a split is a head of the string without separator. *)
Lemma first_split c s :
  ∃ r, s = Py.first (Py.split c s) +:+ r ∧ Py.mem c (Py.first (Py.split c s)) = false.
Proof.
  induction s as [|a s (r & Hr & Hm)]; [by exists EmptyString|].
  cbn [Py.split]. destruct (Ascii.eqb a c) eqn:Hac.
  - by exists (String a s).
  - destruct (Py.split c s) as [|h tl] eqn:Hs; [by apply split_not_nil in Hs|].
    exists r. unfold Py.first in *. cbn [hd] in *. split.
    + simpl. by rewrite Hr at 1.
    + cbn [Py.mem]. by rewrite Ascii.eqb_sym, Hac, Hm.
Qed.

Lemma last_split_clean c s : Py.mem c (Py.last (Py.split c s)) = false.
Proof.
  induction s as [|a s IH]; [done|]. cbn [Py.split].
  destruct (Ascii.eqb a c) eqn:Hac.
  - destruct (Py.split c s) eqn:Hs; [by apply split_not_nil in Hs|done].
  - destruct (Py.split c s) as [|h [|h2 tl]] eqn:Hs.
    + by apply split_not_nil in Hs.
    + unfold Py.last in *. cbn [List.last] in *. cbn [Py.mem].
      by rewrite Ascii.eqb_sym, Hac, IH.
    + done.
Qed.

(** [rsplit] with one cut is undone by joining at the separator. *)
Lemma rsplit1_go_some c s before after :
  Py.rsplit1_go c s = Some (before, after) →
  s = before +:+ Py.chr c +:+ after ∧ Py.mem c after = false.
Proof.
  revert before. induction s as [|a s IH]; intros before; [done|].
  cbn [Py.rsplit1_go].
  destruct (Py.rsplit1_go c s) as [[b' a']|] eqn:Hgo.
  - intros [= <- <-]. destruct (IH b' eq_refl) as [-> Hm]. by split.
  - destruct (Ascii.eqb a c) eqn:Hac; [|done].
    apply Ascii.eqb_eq in Hac as ->. intros [= <- <-]. split; [done|].
    clear IH. induction s as [|a s IH]; [done|].
    cbn [Py.rsplit1_go] in Hgo.
    destruct (Py.rsplit1_go c s) as [[??]|]; [done|].
    destruct (Ascii.eqb a c) eqn:Hac; [done|].
    cbn [Py.mem]. by rewrite Ascii.eqb_sym, Hac, IH.
Qed.

Lemma rsplit1_go_none c s : Py.rsplit1_go c s = None → Py.mem c s = false.
Proof.
  induction s as [|a s IH]; [done|]. cbn [Py.rsplit1_go Py.mem].
  destruct (Py.rsplit1_go c s) as [[??]|]; [done|].
  destruct (Ascii.eqb a c) eqn:Hac; [done|].
  intros _. by rewrite Ascii.eqb_sym, Hac, IH.
Qed.

Lemma rsplit1_go_app c before after :
  Py.mem c after = false →
  Py.rsplit1_go c (before +:+ Py.chr c +:+ after) = Some (before, after).
Proof.
  intros Hm. induction before as [|a b IH].
  - simpl. destruct (Py.rsplit1_go c after) as [[x y]|] eqn:Hgo.
    + apply rsplit1_go_some in Hgo as [-> _].
      rewrite !mem_app in Hm. cbn [Py.mem Py.chr] in Hm.
      rewrite Ascii.eqb_refl in Hm. by rewrite orb_true_r in Hm.
    + by rewrite Ascii.eqb_refl.
  - change (String a b +:+ Py.chr c +:+ after)
      with (String a (b +:+ Py.chr c +:+ after)).
    cbn [Py.rsplit1_go]. by rewrite IH.
Qed.

(** The base name is a head of the last segment of the URL. *)
Lemma base_filename_head url : ∃ r, image_filename url = base_filename url +:+ r.
Proof.
  unfold base_filename, Py.rsplit1.
  destruct (Py.rsplit1_go "." (image_filename url)) as [[b a]|] eqn:Hgo.
  - apply rsplit1_go_some in Hgo as [-> _]. by eexists.
  - exists EmptyString. unfold Py.first. cbn [hd]. by rewrite append_empty_r.
Qed.

End NameFacts.

Section ExtensionClean.

Lemma get_file_extension_clean_dot url : Py.mem "." (get_file_extension url) = false.
Proof.
  unfold get_file_extension.
  destruct (first_split "?" (Py.last (Py.split "." url))) as (r & Hr & Hq).
  pose proof (last_split_clean "." url) as Hdot.
  rewrite Hr, mem_app in Hdot. by apply orb_false_elim in Hdot as [? _].
Qed.

End ExtensionClean.

(** X3.  The extension [get_file_extension] returns holds neither a dot nor
    a question mark. *)
Theorem get_file_extension_clean (url : string) :
  Py.mem "." (get_file_extension url) = false ∧
  Py.mem "?" (get_file_extension url) = false.
Proof.
  split; [apply get_file_extension_clean_dot|].
  unfold get_file_extension.
  by destruct (first_split "?" (Py.last (Py.split "." url))) as (r & Hr & Hq).
Qed.

(** X4.  The base name taken from the image URL holds no slash, so the
    metadata file is always written in the working directory itself, never
    below it. *)
Theorem metadata_path_in_cwd (url : string) :
  Py.mem "/" (base_filename url) = false ∧
  Py.mem "/" (metadata_path url) = false.
Proof.
  assert (Py.mem "/" (base_filename url) = false) as Hb.
  { destruct (base_filename_head url) as [r Hr].
    pose proof (last_split_clean "/" url) as Hf. fold (image_filename url) in Hf.
    rewrite Hr, mem_app in Hf. by apply orb_false_elim in Hf as [? _]. }
  split; [done|]. unfold metadata_path. by rewrite mem_app, Hb.
Qed.

Section StoredName.

(** What follows the last dot, for a string with a cut at its last dot. *)
Lemma last_split_cut c before after :
  Py.mem c after = false →
  Py.last (Py.split c (before +:+ Py.chr c +:+ after)) = after.
Proof.
  intros Hm. rewrite last_split_app.
  - simpl. rewrite Ascii.eqb_refl, (split_absent _ _ Hm). done.
  - simpl. by rewrite Ascii.eqb_refl.
Qed.

End StoredName.

(** X5.  When the last segment of the image URL holds a dot and no question
    mark, the image is stored under that very segment: cutting the name at
    its last dot and joining base and extension again gives it back. *)
Theorem image_stored_under_url_name (url : string) :
  Py.mem "." (image_filename url) = true →
  Py.mem "?" (image_filename url) = false →
  image_path url = image_filename url.
Proof.
  intros Hdot Hq.
  assert (Py.last (Py.split "." url) = Py.last (Py.split "." (image_filename url)))
    as Hext.
  { destruct (last_split_suffix "/" url) as [p Hp]. fold (image_filename url) in Hp.
    rewrite Hp at 1. by apply last_split_app. }
  unfold image_path, get_file_extension, base_filename, Py.rsplit1. rewrite Hext.
  destruct (Py.rsplit1_go "." (image_filename url)) as [[b a]|] eqn:Hgo.
  - apply rsplit1_go_some in Hgo as [Heq Ha]. rewrite Heq in Hq |- *.
    rewrite !mem_app in Hq.
    apply orb_false_elim in Hq as [_ [_ Hqa]%orb_false_elim].
    rewrite (last_split_cut "." b a Ha), (split_absent _ _ Hqa). done.
  - apply rsplit1_go_none in Hgo. congruence.
Qed.

Lemma image_stored_under_url_name_witness :
  image_path "https://www.qwantz.com/comics/comic2-4321.png" = "comic2-4321.png".
Proof.
  apply (image_stored_under_url_name "https://www.qwantz.com/comics/comic2-4321.png");
    reflexivity.
Defined.

(** X6.  A run answers [True] exactly when every step succeeds: the page is
    fetched, a comic is extracted, the image is downloaded, and both writes
    go through. *)
Theorem get_current_comic_true_iff (w : world) (cwd : gmap string string) :
  (get_current_comic w cwd).1 = true ↔
  ∃ soup data image_data,
    fetch_webpage w QWANTZ_BASE_URL = Some soup ∧
    extract_comic_data soup = Some data ∧
    download_image w (image_url data) = Some image_data ∧
    image_io w = Written ∧ metadata_io w = Written.
Proof.
  unfold get_current_comic, save_image, write_file. split.
  - destruct (fetch_webpage w QWANTZ_BASE_URL) as [soup|]; [|done].
    destruct (extract_comic_data soup) as [data|] eqn:He; [|done].
    destruct (download_image w (image_url data)) as [image_data|] eqn:Hd; [|done].
    destruct (image_io w) eqn:Hi; simpl; [|done..].
    destruct (metadata_io w) eqn:Hm; simpl; [|done..].
    intros _. by exists soup, data, image_data.
  - intros (soup & data & image_data & -> & -> & -> & -> & ->). done.
Qed.

(** X7.  A run changes no file but the image file and the metadata file of
    the comic it extracted, and changes none at all unless the page was
    fetched, a comic extracted and the image downloaded. *)
Theorem get_current_comic_frame (w : world) (cwd : gmap string string) (p : string) :
  (get_current_comic w cwd).2 !! p ≠ cwd !! p →
  ∃ soup data image_data,
    fetch_webpage w QWANTZ_BASE_URL = Some soup ∧
    extract_comic_data soup = Some data ∧
    download_image w (image_url data) = Some image_data ∧
    (p = image_path (image_url data) ∨ p = metadata_path (image_url data)).
Proof.
  unfold get_current_comic, save_image, write_file.
  destruct (fetch_webpage w QWANTZ_BASE_URL) as [soup|]; [|done].
  destruct (extract_comic_data soup) as [data|] eqn:He; [|done].
  destruct (download_image w (image_url data)) as [image_data|] eqn:Hd; [|done].
  intros Hp. exists soup, data, image_data. split_and!; [done..|].
  destruct (decide (p = image_path (image_url data))) as [|Hi]; [by left|].
  destruct (decide (p = metadata_path (image_url data))) as [|Hm]; [by right|].
  exfalso. apply Hp. clear Hp.
  destruct (image_io w); simpl; rewrite ?lookup_insert_ne by done; [|done..].
  destruct (metadata_io w); simpl; by rewrite ?lookup_insert_ne by done.
Qed.

Lemma get_current_comic_frame_witness :
  ∃ soup data image_data,
    fetch_webpage (serve strip_page png_bytes Written Written) QWANTZ_BASE_URL
      = Some soup ∧
    extract_comic_data soup = Some data ∧
    download_image (serve strip_page png_bytes Written Written) (image_url data)
      = Some image_data ∧
    ("strip.png" = image_path (image_url data) ∨
     "strip.png" = metadata_path (image_url data)).
Proof.
  apply (get_current_comic_frame (serve strip_page png_bytes Written Written) ∅).
  vm_compute. discriminate.
Defined.

(** X8.  When the image is written and the metadata write fails, the run
    answers [False] and the image stays, complete, without a complete
    metadata file: that file is as it was before the run, or holds a head of
    the text that was to be written. *)
Theorem metadata_failure_keeps_image
    (w : world) (cwd : gmap string string) soup data image_data :
  fetch_webpage w QWANTZ_BASE_URL = Some soup →
  extract_comic_data soup = Some data →
  download_image w (image_url data) = Some image_data →
  image_io w = Written →
  metadata_io w ≠ Written →
  (get_current_comic w cwd).1 = false ∧
  (get_current_comic w cwd).2 !! image_path (image_url data) = Some image_data ∧
  ((get_current_comic w cwd).2 !! metadata_path (image_url data)
     = cwd !! metadata_path (image_url data) ∨
   ∃ n, (get_current_comic w cwd).2 !! metadata_path (image_url data)
        = Some (String.substring 0 n (metadata_text data))).
Proof.
  intros Hf He Hd Hi Hm. unfold get_current_comic, save_image.
  rewrite Hf, He, Hd, Hi. cbn [write_file negb].
  pose proof (image_path_ne_metadata_path (image_url data)) as Hne.
  destruct (metadata_io w) as [| |n]; [done|..]; cbn [write_file fst snd].
  - split_and!; [done|apply lookup_insert_eq|]. left. by rewrite lookup_insert_ne.
  - split_and!; [done| |].
    + rewrite lookup_insert_ne by done. apply lookup_insert_eq.
    + right. exists n. apply lookup_insert_eq.
Qed.

Lemma metadata_failure_keeps_image_witness :
  (get_current_comic (serve strip_page png_bytes Written (WriteFails 3)) ∅).1 = false ∧
  (get_current_comic (serve strip_page png_bytes Written (WriteFails 3)) ∅).2
    !! image_path (image_url plain_record) = Some png_bytes ∧
  ((get_current_comic (serve strip_page png_bytes Written (WriteFails 3)) ∅).2
     !! metadata_path (image_url plain_record)
     = (∅ : gmap string string) !! metadata_path (image_url plain_record) ∨
   ∃ n, (get_current_comic (serve strip_page png_bytes Written (WriteFails 3)) ∅).2
          !! metadata_path (image_url plain_record)
        = Some (String.substring 0 n (metadata_text plain_record))).
Proof.
  apply (metadata_failure_keeps_image
           (serve strip_page png_bytes Written (WriteFails 3)) ∅ strip_page
           plain_record png_bytes); try reflexivity.
  discriminate.
Defined.

(** * Further properties of the README updater *)

Section TreeFacts.

Implicit Types (entries root : list (string * entry)).

Lemma put_put name content entries :
  put name content (put name content entries) = put name content entries.
Proof.
  induction entries as [|[n e] entries IH]; cbn [put].
  - by rewrite String.eqb_refl.
  - destruct (String.eqb n name) eqn:Hn; cbn [put]; rewrite Hn; [done|].
    by rewrite IH.
Qed.

Lemma write_text_other how name text entries other :
  other ≠ name →
  lookup other (write_text how name text entries).1 = lookup other entries.
Proof.
  intros Hne. unfold write_text.
  destruct (lookup name entries) as [[|?]|]; [|done|];
    destruct how, (Py.is_utf8 text); cbn [fst]; by rewrite ?lookup_put_ne.
Qed.

End TreeFacts.

(** X9.  Regenerating the README twice in a row is regenerating it once:
    the second call leaves the project as the first one made it and ends
    the same way. *)
Theorem update_readme_idempotent (root : list (string * entry)) :
  update_readme Written (update_readme Written root).1 = update_readme Written root.
Proof.
  unfold update_readme.
  destruct (get_most_recent_comic root) as [[[[[date name] path] title]|]|e|] eqn:Hg;
    cbn [fst]; rewrite ?Hg; [|done..].
  unfold write_text.
  destruct (lookup "README.md" root) as [[old|entries]|] eqn:Hl,
    (Py.is_utf8 (readme_content date name path title)) eqn:Henc; cbn [fst];
    try (by rewrite Hg, Hl);
    rewrite (get_most_recent_comic_data root) by (by apply lookup_put_ne);
    by rewrite Hg, lookup_put_eq, Henc, put_put.
Qed.

(** X10.  However the write ends, [update_readme] touches no entry of the
    project root but [README.md]; the archive under [data] is only read. *)
Theorem update_readme_preserves (how : io) (root : list (string * entry))
    (name : string) :
  name ≠ "README.md" →
  lookup name (update_readme how root).1 = lookup name root.
Proof.
  intros Hne. unfold update_readme.
  destruct (get_most_recent_comic root) as [[[[[date n] path] title]|]|e|];
    [|done..].
  by apply write_text_other.
Qed.

Lemma update_readme_preserves_witness :
  lookup "data" (update_readme (WriteFails 5) sample_archive).1
  = lookup "data" sample_archive.
Proof. apply (update_readme_preserves (WriteFails 5) sample_archive "data"). discriminate. Defined.

Section PathFacts.

Implicit Types (s : string).

Lemma replace_space_clean s : Py.mem " " (Py.replace " " "%20" s) = false.
Proof.
  unfold Py.replace. induction s as [|a s IH]; [done|].
  cbn [Py.replace_go String.prefix String.length Nat.sub].
  destruct (ascii_dec " " a) as [<-|Hne].
  - rewrite prefix_empty. simpl. exact IH.
  - cbn [Py.mem]. rewrite IH. by rewrite (proj2 (Ascii.eqb_neq " " a)).
Qed.

Lemma replace_space_keep a s :
  a ≠ " "%char →
  Py.replace " " "%20" (String a s) = String a (Py.replace " " "%20" s).
Proof.
  intros Ha. unfold Py.replace. cbn [Py.replace_go String.prefix].
  by destruct (ascii_dec " " a).
Qed.

End PathFacts.

(** X11.  The image path [get_most_recent_comic] returns holds no space
    and starts with [data/]: it is relative to the project root and safe
    inside a Markdown link. *)
Theorem relative_image_path_escaped (root : list (string * entry))
    date name path title :
  get_most_recent_comic root = Return (Some (date, name, path, title)) →
  Py.mem " " path = false ∧ String.prefix "data/" path = true.
Proof.
  intros (data & rest & dir & found_in & image_name & others &
          _ & _ & _ & _ & _ & -> & _)%get_most_recent_comic_inv.
  split; [apply replace_space_clean|].
  apply prefix_true. eexists.
  change ("data/" +:+ found_in +:+ "/" +:+ image_name)
    with (String "d" (String "a" (String "t" (String "a"
            (String "/" (found_in +:+ "/" +:+ image_name)))))).
  by rewrite !replace_space_keep by done.
Qed.

Lemma relative_image_path_escaped_witness :
  Py.mem " " "data/2024-01-02/strip.png" = false ∧
  String.prefix "data/" "data/2024-01-02/strip.png" = true.
Proof.
  apply (relative_image_path_escaped (archive_with (metadata_text plain_record))
           "2024-01-02" "strip" "data/2024-01-02/strip.png" "T").
  vm_compute. reflexivity.
Defined.

Section StripFacts.

Implicit Types (a b c : ascii) (s t w : string).

Lemma existsb_false {A} (f : A → bool) (l : list A) :
  (∀ x, x ∈ l → f x = false) → existsb f l = false.
Proof.
  intros H. apply not_true_is_false. intros (x & Hx & Hf)%existsb_exists.
  apply list_elem_of_In in Hx. by rewrite (H x Hx) in Hf.
Qed.

Lemma existsb_false_inv {A} (f : A → bool) (l : list A) x :
  existsb f l = false → x ∈ l → f x = false.
Proof.
  intros H Hx. apply not_true_is_false. intros Hf.
  apply not_true_iff_false in H. apply H, existsb_exists.
  exists x. split; [by apply list_elem_of_In|done].
Qed.

(** What [rstrip] leaves ends with no whitespace, and is a head of the
    string. *)
Lemma rstrip_ends s : Py.ends_with_space (Py.rstrip s) = false.
Proof.
  induction s as [|a s IH]; [vm_compute; reflexivity|]. cbn [Py.rstrip].
  destruct (Py.is_space (String a (Py.rstrip s))) eqn:Hsp;
    [vm_compute; reflexivity|].
  apply existsb_false. intros w Hw. cbn [Py.endswith].
  rewrite (existsb_false_inv _ _ w IH Hw), orb_false_r.
  apply not_true_is_false. intros ->%String.eqb_eq.
  apply is_space_elem in Hw. congruence.
Qed.

Lemma rstrip_head s : ∃ r, s = Py.rstrip s +:+ r.
Proof.
  induction s as [|a s [r IH]]; [by exists EmptyString|]. cbn [Py.rstrip].
  destruct (Py.is_space _).
  - by exists (String a s).
  - exists r. simpl. by rewrite IH at 1.
Qed.

Lemma prefix_app_l w s r : String.prefix w s = true → String.prefix w (s +:+ r) = true.
Proof.
  intros [x ->]%prefix_true. apply prefix_true. exists (x +:+ r).
  apply app_assoc'.
Qed.

Lemma rstrip_starts s :
  Py.starts_with_space s = false → Py.starts_with_space (Py.rstrip s) = false.
Proof.
  intros Hs. apply existsb_false. intros w Hw.
  apply not_true_is_false. intros Hp.
  destruct (rstrip_head s) as [r Hr].
  pose proof (existsb_false_inv _ _ w Hs Hw) as Hf. cbn beta in Hf.
  rewrite Hr in Hf. by rewrite (prefix_app_l _ _ r Hp) in Hf.
Qed.

(** A whitespace character takes one, two or three bytes. *)
Lemma whitespace_width :
  Forall (λ w, ∃ a, w = Py.chr a ∨ (∃ b, w = String a (Py.chr b)) ∨
                    (∃ b c, w = String a (String b (Py.chr c))))
    Py.whitespace.
Proof.
  vm_compute.
  repeat (constructor;
          [eexists; first [left; reflexivity
                          | right; left; eexists; reflexivity
                          | right; right; do 2 eexists; reflexivity]|]).
  constructor.
Qed.

Lemma prefix_chr a c s :
  String.prefix (Py.chr a) (String c s) = true → a = c.
Proof. simpl. by destruct (ascii_dec a c). Qed.

(** A string none of whose first one, two or three bytes is a whitespace
    character starts with none. *)
Lemma starts_with_space_heads s :
  (∀ w, Py.is_space w = true → String.prefix w s = true → False) →
  Py.starts_with_space s = false.
Proof.
  intros H. apply existsb_false. intros w Hw. apply not_true_is_false.
  intros Hp. apply (H w); [by apply is_space_elem|done].
Qed.

Lemma lstrip_starts_bounded n s :
  String.length s ≤ n → Py.starts_with_space (Py.lstrip s) = false.
Proof.
  revert s. induction n as [|n IH]; intros s Hn.
  { destruct s; [vm_compute; reflexivity|simpl in Hn; lia]. }
  destruct s as [|a r1]; [vm_compute; reflexivity|]. simpl in Hn.
  cbn [Py.lstrip].
  destruct (Py.is_space (Py.chr a)) eqn:H1; [apply IH; lia|].
  assert (∀ w x, w ∈ Py.whitespace → String a r1 = w +:+ x →
                 (∃ b r2, r1 = String b r2 ∧
                    (w = String a (Py.chr b) ∨
                     ∃ c r3, r2 = String c r3 ∧ w = String a (String b (Py.chr c)))))
    as Hshape.
  { intros w x Hw Heq.
    pose proof (proj1 (Forall_forall _ _) whitespace_width w Hw)
      as (a' & [-> | [(b & ->) | (b & c & ->)]]).
    - simpl in Heq. injection Heq as <- _.
      apply is_space_elem in Hw. congruence.
    - simpl in Heq. injection Heq as <- ->. exists b, x. split; [done|by left].
    - simpl in Heq. injection Heq as <- ->. exists b, (String c x).
      split; [done|]. right. by exists c, x. }
  destruct r1 as [|b r2].
  { apply starts_with_space_heads. intros w Hw [x Hx]%prefix_true.
    apply is_space_elem in Hw.
    by destruct (Hshape w x Hw Hx) as (? & ? & ? & _). }
  destruct (Py.is_space (String a (Py.chr b))) eqn:H2; [apply IH; simpl in *; lia|].
  destruct r2 as [|c r3].
  { apply starts_with_space_heads. intros w Hw [x Hx]%prefix_true.
    pose proof Hw as Hw'. apply is_space_elem in Hw.
    destruct (Hshape w x Hw Hx) as (b' & r2' & [= <- <-] & [->|(? & ? & ? & _)]);
      [congruence|done]. }
  destruct (Py.is_space (String a (String b (Py.chr c)))) eqn:H3;
    [apply IH; simpl in *; lia|].
  apply starts_with_space_heads. intros w Hw [x Hx]%prefix_true.
  pose proof Hw as Hw'. apply is_space_elem in Hw.
  destruct (Hshape w x Hw Hx)
    as (b' & r2' & [= <- <-] & [->|(c' & r3' & [= <- <-] & ->)]); congruence.
Qed.

Lemma strip_clean s :
  Py.starts_with_space (Py.strip s) = false ∧
  Py.ends_with_space (Py.strip s) = false.
Proof.
  unfold Py.strip. split; [|apply rstrip_ends].
  apply rstrip_starts, (lstrip_starts_bounded (String.length s)). done.
Qed.

Lemma scan_title_clean lines :
  Py.starts_with_space (scan_title lines) = false ∧
  Py.ends_with_space (scan_title lines) = false.
Proof.
  induction lines as [|l lines IH]; cbn [scan_title].
  - split; vm_compute; reflexivity.
  - destruct (String.prefix "Title:" l); [apply strip_clean|done].
Qed.

End StripFacts.

(** X12.  The title [get_most_recent_comic] returns neither starts nor ends
    with whitespace, whatever the metadata file holds. *)
Theorem resolved_title_trimmed (root : list (string * entry))
    date name path title :
  get_most_recent_comic root = Return (Some (date, name, path, title)) →
  Py.starts_with_space title = false ∧ Py.ends_with_space title = false.
Proof.
  intros (data & rest & dir & found_in & image_name & others &
          _ & _ & _ & _ & _ & _ & Ht)%get_most_recent_comic_inv.
  revert Ht. unfold read_metadata_title.
  destruct (lookup _ dir) as [[content|]|]; [|done|].
  - intros [= <-]. apply scan_title_clean.
  - intros [= <-]. split; vm_compute; reflexivity.
Qed.

Lemma resolved_title_trimmed_witness :
  Py.starts_with_space "padded" = false ∧ Py.ends_with_space "padded" = false.
Proof.
  apply (resolved_title_trimmed
           (archive_with ("Title:   padded  " +:+ Py.nl))
           "2024-01-02" "strip" "data/2024-01-02/strip.png" "padded").
  vm_compute. reflexivity.
Defined.

(** * The daily directory *)

Section DirectoryFacts.

Implicit Types (entries root data : list (string * entry)) (e : entry).

Lemma lookup_app name entries entries' :
  lookup name (entries ++ entries') =
  match lookup name entries with
  | Some e => Some e
  | None => lookup name entries'
  end.
Proof.
  induction entries as [|[n e] entries IH]; [done|]. cbn [app lookup].
  by destruct (String.eqb n name).
Qed.

Lemma lookup_insert_at_ne name n e pos entries :
  n ≠ name → lookup name (insert_at pos (n, e) entries) = lookup name entries.
Proof.
  intros Hne. unfold insert_at. rewrite <- (take_drop pos entries) at 3.
  rewrite !lookup_app. cbn [lookup].
  by rewrite (proj2 (String.eqb_neq n name)).
Qed.

Lemma lookup_insert_at_new name e pos entries :
  lookup name entries = None →
  lookup name (insert_at pos (name, e) entries) = Some e.
Proof.
  intros Hnone. unfold insert_at. rewrite <- (take_drop pos entries) in Hnone.
  rewrite lookup_app in Hnone |- *.
  destruct (lookup name (take pos entries)); [done|].
  cbn [lookup]. by rewrite String.eqb_refl.
Qed.

Lemma lookup_set_entry_eq name e e0 entries :
  lookup name entries = Some e0 → lookup name (set_entry name e entries) = Some e.
Proof.
  induction entries as [|[n e'] entries IH]; [done|]. cbn [lookup set_entry].
  destruct (String.eqb n name) eqn:Hn; cbn [lookup]; rewrite Hn; [done|exact IH].
Qed.

Lemma lookup_set_entry_ne name other e entries :
  other ≠ name → lookup other (set_entry name e entries) = lookup other entries.
Proof.
  intros Hne. induction entries as [|[n e'] entries IH]; [done|].
  cbn [lookup set_entry]. destruct (String.eqb n name) eqn:Hn; cbn [lookup].
  - apply String.eqb_eq in Hn as ->.
    by rewrite (proj2 (String.eqb_neq name other)) by done.
  - by rewrite IH.
Qed.

Lemma subdirectories_insert_at pos name dir data :
  subdirectories (insert_at pos (name, Dir dir) data) ≡ₚ name :: subdirectories data.
Proof.
  unfold subdirectories, insert_at. rewrite <- (take_drop pos data) at 3.
  rewrite !filter_app, filter_cons_True by done.
  rewrite !map_app. cbn [map fst]. by rewrite Permutation_middle.
Qed.

End DirectoryFacts.

Section SetupFacts.

(** After a call that ends without exception the day has its directory. *)
Lemma setup_daily_directory_day os now root :
  (setup_daily_directory os now root).2 = None →
  ∃ data' dir,
    lookup "data" (setup_daily_directory os now root).1 = Some (Dir data') ∧
    lookup (strftime now) data' = Some (Dir dir).
Proof.
  unfold setup_daily_directory.
  destruct (lookup "data" root) as [[|data]|] eqn:Hd; cbn [snd fst].
  - done.
  - destruct (lookup (strftime now) data) as [[|dir]|] eqn:Hday; cbn [snd fst].
    + done.
    + intros _. by exists data, dir.
    + destruct (day_mkdir os) as [pos|]; [|done]. cbn [snd fst]. intros _.
      exists (insert_at pos (strftime now, Dir []) data), [].
      split; [by apply (lookup_set_entry_eq _ _ (Dir data))|].
      by apply lookup_insert_at_new.
  - destruct (data_mkdir os) as [pos|]; [|done].
    destruct (day_mkdir os) as [pos'|]; [|done]. cbn [snd fst]. intros _.
    exists [(strftime now, Dir [])], []. split.
    + by apply lookup_insert_at_new.
    + cbn [lookup]. by rewrite String.eqb_refl.
Qed.

End SetupFacts.

(** X13.  When [setup_daily_directory] ends without exception, the
    directory of the day exists under [data]; whatever the outcome, no other
    entry of the project root changes, and where [data] was there already
    no other day changes. *)
Theorem setup_daily_directory_creates (os : mkdir_world) (now : calendar_date)
    (root : list (string * entry)) :
  ((setup_daily_directory os now root).2 = None →
   ∃ data' dir,
     lookup "data" (setup_daily_directory os now root).1 = Some (Dir data') ∧
     lookup (strftime now) data' = Some (Dir dir)) ∧
  (∀ name, name ≠ "data" →
     lookup name (setup_daily_directory os now root).1 = lookup name root) ∧
  (∀ data data' other,
     lookup "data" root = Some (Dir data) →
     lookup "data" (setup_daily_directory os now root).1 = Some (Dir data') →
     other ≠ strftime now →
     lookup other data' = lookup other data).
Proof.
  split_and!; [apply setup_daily_directory_day|..]; unfold setup_daily_directory.
  - intros name Hname.
    destruct (lookup "data" root) as [[|data]|] eqn:Hd; cbn [fst]; [done| |].
    + destruct (lookup (strftime now) data) as [[|dir]|]; [done..|].
      destruct (day_mkdir os); [|done]. cbn [fst]. by apply lookup_set_entry_ne.
    + destruct (data_mkdir os); [|done].
      destruct (day_mkdir os); cbn [fst]; by apply lookup_insert_at_ne.
  - intros data data' other Hd. rewrite Hd.
    destruct (lookup (strftime now) data) as [[|dir]|]; cbn [fst];
      [congruence..|].
    destruct (day_mkdir os) as [pos|]; cbn [fst]; [|congruence].
    rewrite (lookup_set_entry_eq _ _ (Dir data)) by done.
    intros [= <-] Hother. by apply lookup_insert_at_ne.
Qed.

Lemma setup_daily_directory_creates_witness :
  ∃ data' dir,
    lookup "data" (setup_daily_directory sample_os sample_today sample_archive).1
      = Some (Dir data') ∧
    lookup (strftime sample_today) data' = Some (Dir dir).
Proof.
  apply (proj1 (setup_daily_directory_creates sample_os sample_today sample_archive)).
  reflexivity.
Defined.

(** X14.  [setup_daily_directory] is idempotent: once it has succeeded, a
    second call for the same day changes nothing and succeeds, whatever the
    operating system would answer to a [mkdir]. *)
Theorem setup_daily_directory_idempotent (os os' : mkdir_world)
    (now : calendar_date) (root : list (string * entry)) :
  (setup_daily_directory os now root).2 = None →
  setup_daily_directory os' now (setup_daily_directory os now root).1
  = ((setup_daily_directory os now root).1, None).
Proof.
  intros Hok.
  destruct (setup_daily_directory_day os now root Hok) as (data' & dir & Hd & Hday).
  unfold setup_daily_directory at 1. by rewrite Hd, Hday.
Qed.

Lemma setup_daily_directory_idempotent_witness :
  setup_daily_directory {| data_mkdir := None; day_mkdir := None |} sample_today
    (setup_daily_directory sample_os sample_today sample_archive).1
  = ((setup_daily_directory sample_os sample_today sample_archive).1, None).
Proof.
  apply (setup_daily_directory_idempotent sample_os). reflexivity.
Defined.

Section DateFacts.

Implicit Types (a b : calendar_date) (x y : N).

Lemma digit_compare x y :
  Ascii.compare (digit x) (digit y) = (x mod 10 ?= y mod 10)%N.
Proof.
  unfold Ascii.compare, digit.
  rewrite !N_ascii_embedding by (zify; Z.to_euclidean_division_equations; lia).
  destruct (N.compare_spec (x mod 10) (y mod 10));
    [apply N.compare_eq_iff|apply N.compare_lt_iff|apply N.compare_gt_iff]; lia.
Qed.

Lemma compare_digits x y s t :
  String.compare (String (digit x) s) (String (digit y) t) =
  match (x mod 10 ?= y mod 10)%N with
  | Eq => String.compare s t
  | Lt => Lt
  | Gt => Gt
  end.
Proof. cbn [String.compare]. by rewrite digit_compare. Qed.

Lemma compare_same c s t :
  String.compare (String c s) (String c t) = String.compare s t.
Proof. cbn [String.compare]. unfold Ascii.compare. by rewrite N.compare_refl. Qed.

Lemma compare_refl s : String.compare s s = Eq.
Proof. induction s as [|c s IH]; [done|]. rewrite compare_same. exact IH. Qed.

Lemma valid_date_bounds a :
  valid_date a = true →
  (1000 ≤ year a ≤ 9999 ∧ 1 ≤ month a ≤ 12 ∧ 1 ≤ day a ≤ 31)%N.
Proof.
  unfold valid_date. rewrite !andb_true_iff, !N.leb_le. tauto.
Qed.

Local Ltac arith := zify; Z.to_euclidean_division_equations; lia.

Lemma four_digits x :
  (1000 ≤ x ≤ 9999)%N →
  (x = 1000 * ((x / 1000) mod 10) + 100 * ((x / 100) mod 10)
       + 10 * ((x / 10) mod 10) + x mod 10)%N.
Proof. intros. arith. Qed.

Lemma two_digits x :
  (x ≤ 99)%N → (x = 10 * ((x / 10) mod 10) + x mod 10)%N.
Proof. intros. arith. Qed.

Lemma digit_bound x : (x mod 10 < 10)%N.
Proof. arith. Qed.

Local Ltac name_digit x d :=
  pose proof (digit_bound x); set (d := (x mod 10)%N) in *; clearbody d.

Local Ltac by_digit x y :=
  destruct (N.compare_spec x y);
  [ | symmetry; apply N.compare_lt_iff; lia
    | symmetry; apply N.compare_gt_iff; lia ].

(** Comparing the names of two dates is comparing the dates. *)
Lemma strftime_compare a b :
  valid_date a = true → valid_date b = true →
  String.compare (strftime a) (strftime b) = (date_key a ?= date_key b)%N.
Proof.
  intros Ha%valid_date_bounds Hb%valid_date_bounds. unfold strftime, Py.chr.
  rewrite !compare_digits, !compare_same, !compare_digits, !compare_same,
    !compare_digits.
  change (String.compare EmptyString EmptyString) with Eq.
  unfold date_key.
  pose proof (four_digits (year a) (proj1 Ha)) as Hya.
  pose proof (four_digits (year b) (proj1 Hb)) as Hyb.
  pose proof (two_digits (month a) ltac:(lia)) as Hma.
  pose proof (two_digits (month b) ltac:(lia)) as Hmb.
  pose proof (two_digits (day a) ltac:(lia)) as Hda.
  pose proof (two_digits (day b) ltac:(lia)) as Hdb.
  name_digit (year a / 1000)%N a7. name_digit (year b / 1000)%N b7.
  name_digit (year a / 100)%N a6. name_digit (year b / 100)%N b6.
  name_digit (year a / 10)%N a5. name_digit (year b / 10)%N b5.
  name_digit (year a) a4. name_digit (year b) b4.
  name_digit (month a / 10)%N a3. name_digit (month b / 10)%N b3.
  name_digit (month a) a2. name_digit (month b) b2.
  name_digit (day a / 10)%N a1. name_digit (day b / 10)%N b1.
  name_digit (day a) a0. name_digit (day b) b0.
  by_digit a7 b7. by_digit a6 b6. by_digit a5 b5. by_digit a4 b4.
  by_digit a3 b3. by_digit a2 b2. by_digit a1 b1. by_digit a0 b0.
  symmetry. apply N.compare_eq_iff. lia.
Qed.

Lemma strftime_le a b :
  valid_date a = true → valid_date b = true →
  (strftime a ≤ strftime b)%string ↔ date_le a b.
Proof.
  intros Ha Hb. unfold String.le, String.leb.
  rewrite (strftime_compare a b Ha Hb).
  apply valid_date_bounds in Ha, Hb. unfold date_le. unfold date_key.
  destruct (N.compare_spec (year a * 10000 + month a * 100 + day a)
              (year b * 10000 + month b * 100 + day b)) as [H|H|H];
    cbn [Is_true]; (split; [intros Hle|intros Hle]); try done; lia.
Qed.

Lemma strftime_inj a b :
  valid_date a = true → valid_date b = true →
  strftime a = strftime b → a = b.
Proof.
  intros Ha Hb Heq.
  assert (String.compare (strftime a) (strftime b) = Eq) as Hc.
  { rewrite Heq. apply compare_refl. }
  rewrite (strftime_compare a b Ha Hb) in Hc. apply N.compare_eq_iff in Hc.
  apply valid_date_bounds in Ha, Hb. unfold date_key in Hc.
  destruct a as [ya ma da], b as [yb mb db]; cbn [year month day] in *.
  f_equal; lia.
Qed.

(** A digit is one of the ten digit characters. *)
Lemma digit_cases x :
  digit x ∈ ["0"; "1"; "2"; "3"; "4"; "5"; "6"; "7"; "8"; "9"]%char.
Proof.
  unfold digit.
  assert (x mod 10 = 0 ∨ x mod 10 = 1 ∨ x mod 10 = 2 ∨ x mod 10 = 3 ∨
          x mod 10 = 4 ∨ x mod 10 = 5 ∨ x mod 10 = 6 ∨ x mod 10 = 7 ∨
          x mod 10 = 8 ∨ x mod 10 = 9)%N as Hx by arith.
  repeat destruct Hx as [-> | Hx]; [..|rewrite Hx];
    repeat first [left; done | right]; left.
Qed.

Lemma digit_not_magic x :
  Ascii.eqb "*" (digit x) = false ∧ Ascii.eqb "?" (digit x) = false ∧
  Ascii.eqb "[" (digit x) = false.
Proof.
  pose proof (digit_cases x) as H.
  repeat (apply elem_of_cons in H as [-> | H]; [by split_and!|]).
  by apply elem_of_nil in H.
Qed.

(** The name of a day holds none of the pattern characters of [glob]. *)
Lemma has_magic_strftime a : has_magic (strftime a) = false.
Proof.
  unfold has_magic, strftime, Py.chr. cbn [Py.mem].
  repeat match goal with
         | |- context [digit ?x] =>
             let H := fresh in
             destruct (digit_not_magic x) as (H & ? & ?);
             generalize dependent (digit x); intros
         end.
  repeat match goal with H : Ascii.eqb _ _ = false |- _ => rewrite H; clear H end.
  reflexivity.
Qed.

Lemma digit_ascii x : (Py.byte (digit x) <? 0x80)%N = true.
Proof.
  pose proof (digit_cases x) as H.
  repeat (apply elem_of_cons in H as [-> | H]; [done|]).
  by apply elem_of_nil in H.
Qed.

(** The name of a day is ASCII. *)
Lemma is_ascii_strftime a : Py.is_ascii (strftime a) = true.
Proof.
  unfold strftime, Py.chr. cbn [Py.is_ascii]. by rewrite !digit_ascii.
Qed.

(** On the names of days, the order of [str] is the order of the bytes. *)
Lemma name_leb_strftime a b :
  Py.name_leb (strftime a) (strftime b) = true ↔ (strftime a ≤ strftime b)%string.
Proof.
  rewrite name_leb_ascii by apply is_ascii_strftime.
  unfold String.le. by destruct (String.leb _ _).
Qed.

End DateFacts.

(** X15.  For dates with a year of four digits, the names [strftime] gives
    them order as the dates do, and different dates get different names:
    sorting the names of the daily directories is sorting the days. *)
Theorem strftime_order (a b : calendar_date) :
  valid_date a = true → valid_date b = true →
  ((strftime a ≤ strftime b)%string ↔ date_le a b) ∧
  (strftime a = strftime b → a = b).
Proof.
  intros Ha Hb. split; [by apply strftime_le|by apply strftime_inj].
Qed.

Lemma strftime_order_witness :
  ((strftime {| year := 2023; month := 12; day := 31 |} ≤ strftime sample_today)%string
   ↔ date_le {| year := 2023; month := 12; day := 31 |} sample_today) ∧
  (strftime {| year := 2023; month := 12; day := 31 |} = strftime sample_today →
   {| year := 2023; month := 12; day := 31 |} = sample_today).
Proof. apply strftime_order; reflexivity. Defined.

Section LatestDay.

Lemma get_most_recent_comic_head root data date name path title :
  lookup "data" root = Some (Dir data) →
  get_most_recent_comic root = Return (Some (date, name, path, title)) →
  ∃ rest, sorted_reverse (subdirectories data) = date :: rest.
Proof.
  intros Hd (data' & rest & dir & found_in & image_name & others &
             Hd' & Hs & _)%get_most_recent_comic_inv.
  assert (data' = data) as -> by congruence. by exists rest.
Qed.

End LatestDay.

(** X16.  In an archive whose directories are named by [strftime] after
    dates with a year of four digits, the date [get_most_recent_comic]
    returns is the name of the latest of these days; [glob] reads none of
    these names as a pattern. *)
Theorem get_most_recent_comic_latest_day
    (root data : list (string * entry)) (dates : list calendar_date) :
  lookup "data" root = Some (Dir data) →
  subdirectories data = map strftime dates →
  Forall (λ d, valid_date d = true) dates →
  get_most_recent_comic root ≠ Unmodelled ∧
  (∀ date name path title,
     get_most_recent_comic root = Return (Some (date, name, path, title)) →
     ∃ d, d ∈ dates ∧ date = strftime d ∧ ∀ d', d' ∈ dates → date_le d' d) ∧
  (∀ d, d ∈ subdirectories data → has_magic d = false).
Proof.
  intros Hd Hnames Hvalid. split_and!.
  - apply get_most_recent_comic_modelled.
  - intros date name path title Hg.
    destruct (get_most_recent_comic_head _ _ _ _ _ _ Hd Hg) as [rest Hs].
    apply sorted_reverse_head in Hs as [Hin Hmax]. rewrite Hnames in Hin, Hmax.
    apply list_elem_of_fmap in Hin as (d & -> & Hdin).
    exists d. split_and!; [done..|]. intros d' Hd'.
    apply strftime_le.
    + by apply (proj1 (Forall_forall _ _) Hvalid).
    + by apply (proj1 (Forall_forall _ _) Hvalid).
    + apply name_leb_strftime, Hmax. by apply list_elem_of_fmap_2.
  - intros d. rewrite Hnames. intros (d0 & -> & _)%list_elem_of_fmap.
    apply has_magic_strftime.
Qed.

Lemma get_most_recent_comic_latest_day_witness :
  get_most_recent_comic sample_archive ≠ Unmodelled ∧
  (∀ date name path title,
     get_most_recent_comic sample_archive = Return (Some (date, name, path, title)) →
     ∃ d, d ∈ [ {| year := 2024; month := 1; day := 1 |};
                {| year := 2024; month := 1; day := 2 |} ] ∧
          date = strftime d ∧
          ∀ d', d' ∈ [ {| year := 2024; month := 1; day := 1 |};
                       {| year := 2024; month := 1; day := 2 |} ] → date_le d' d) ∧
  (∀ d, d ∈ subdirectories [("2024-01-01", Dir [("a.png", File png_bytes)]);
                            ("2024-01-02", Dir [("b.png", File png_bytes)])] →
        has_magic d = false).
Proof.
  apply (get_most_recent_comic_latest_day sample_archive
           [("2024-01-01", Dir [("a.png", File png_bytes)]);
            ("2024-01-02", Dir [("b.png", File png_bytes)])]).
  - reflexivity.
  - reflexivity.
  - repeat constructor.
Defined.

(** X17.  The resolver looks into the latest directory only: once
    [setup_daily_directory] has created the directory of a day later than
    every archived one, [get_most_recent_comic] finds no comic until an
    image is stored there, whatever the older days hold. *)
Theorem empty_day_hides_archive (os : mkdir_world) (now : calendar_date)
    (root data : list (string * entry)) (pos : nat) :
  lookup "data" root = Some (Dir data) →
  lookup (strftime now) data = None →
  day_mkdir os = Some pos →
  (∀ d, d ∈ subdirectories data → (d ≤ strftime now)%string) →
  get_most_recent_comic (setup_daily_directory os now root).1 = Return None.
Proof.
  intros Hd Hnew Hos Hmax. unfold setup_daily_directory.
  rewrite Hd, Hnew, Hos. cbn [fst]. unfold get_most_recent_comic.
  rewrite (lookup_set_entry_eq _ _ (Dir data)) by done.
  pose proof (subdirectories_insert_at pos (strftime now) [] data) as Hperm.
  destruct (sorted_reverse (subdirectories (insert_at pos (strftime now, Dir []) data)))
    as [|h rest] eqn:Hs.
  { pose proof (sorted_reverse_perm
                  (subdirectories (insert_at pos (strftime now, Dir []) data))) as Hp.
    rewrite Hs, Hperm in Hp. by apply Permutation_nil_cons in Hp. }
  apply sorted_reverse_head in Hs as [Hin Hge].
  assert (h = strftime now) as ->.
  { rewrite Hperm in Hin. apply elem_of_cons in Hin as [->|Hin]; [done|].
    apply name_leb_ascii_anti; [apply is_ascii_strftime| |by apply Hmax].
    apply Hge. rewrite Hperm. by left. }
  rewrite lookup_insert_at_new by done.
  by rewrite glob_most_recent_plain by apply has_magic_strftime.
Qed.

Lemma empty_day_hides_archive_witness :
  get_most_recent_comic (setup_daily_directory sample_os sample_today sample_archive).1
  = Return None.
Proof.
  apply (empty_day_hides_archive sample_os sample_today sample_archive
           [("2024-01-01", Dir [("a.png", File png_bytes)]);
            ("2024-01-02", Dir [("b.png", File png_bytes)])] 1).
  - reflexivity.
  - reflexivity.
  - reflexivity.
  - intros d Hd. cbn in Hd.
    repeat (apply elem_of_cons in Hd as [->|Hd]; [vm_compute; exact I|]).
    by apply elem_of_nil in Hd.
Defined.

(** * From the scraper to the README *)

Section DecodeFacts.

Implicit Types (s content : string).

Lemma utf8_pending_prefix_bounded k s n :
  String.length s ≤ k →
  Py.utf8_pending s ≠ None →
  Py.utf8_pending (String.substring 0 n s) ≠ None.
Proof.
  revert s n. induction k as [|k IH]; intros s n Hk.
  { destruct s; [|simpl in Hk; lia]. by destruct n. }
  destruct s as [|b0 r1]; [by destruct n|].
  destruct n as [|n1]; [done|].
  cbn [String.substring Py.utf8_pending]. cbn [String.length] in Hk.
  destruct (Py.byte b0 <? 128)%N; [apply IH; lia|].
  destruct ((Py.byte b0 <? 194)%N || (244 <? Py.byte b0)%N); [done|].
  destruct r1 as [|b1 r2]; [by destruct n1|].
  destruct n1 as [|n2]; [done|].
  cbn [String.substring]. cbn [String.length] in Hk.
  destruct (negb (Py.second_byte (Py.byte b0) b1)); [done|].
  destruct (Py.byte b0 <? 224)%N; [apply IH; lia|].
  destruct r2 as [|b2 r3]; [by destruct n2|].
  destruct n2 as [|n3]; [done|].
  cbn [String.substring]. cbn [String.length] in Hk.
  destruct (negb (Py.continuation b2)); [done|].
  destruct (Py.byte b0 <? 240)%N; [apply IH; lia|].
  destruct r3 as [|b3 r4]; [by destruct n3|].
  destruct n3 as [|n4]; [done|].
  cbn [String.substring]. cbn [String.length] in Hk.
  destruct (negb (Py.continuation b3)); [done|].
  apply IH; lia.
Qed.

(** A text that is UTF-8 to its end is read without an error, wherever
    the reading stops. *)
Lemma read_raises_utf8 stop fuel reads content :
  Py.is_utf8 content = true → Py.read_raises stop fuel reads content = false.
Proof.
  intros Hvalid. revert reads.
  induction fuel as [|fuel IH]; intros reads; cbn [Py.read_raises]; [done|].
  destruct (_ <=? _)%nat; [by rewrite Hvalid|].
  destruct (Py.utf8_pending (String.substring 0 _ content)) as [held|] eqn:Hp.
  - destruct (existsb _ _); [done|apply IH].
  - exfalso. revert Hp.
    apply (utf8_pending_prefix_bounded (String.length content)); [done|].
    unfold Py.is_utf8 in Hvalid. by destruct (Py.utf8_pending content).
Qed.

Lemma decode_raises_utf8 content :
  Py.is_utf8 content = true → decode_raises content = false.
Proof. apply read_raises_utf8. Qed.

End DecodeFacts.

Section PipelineFacts.

(** The name of a stored [png] image, cut by [Path.stem], is the base name
    the scraper derived, provided it is not empty. *)
Lemma stem_image_path url :
  get_file_extension url = "png" →
  base_filename url ≠ EmptyString →
  stem (image_path url) = base_filename url.
Proof.
  intros Hext Hbase. unfold stem, image_path. rewrite Hext.
  change (base_filename url +:+ "." +:+ "png")
    with (base_filename url +:+ Py.chr "." +:+ "png").
  rewrite (rsplit1_go_app "." (base_filename url) "png") by done.
  destruct (String.eqb (base_filename url) EmptyString) eqn:He; [|done].
  by apply String.eqb_eq in He.
Qed.

Lemma glob_png_visible dir name others :
  glob_png dir = name :: others → String.prefix "." name = false.
Proof.
  intros Hg. assert (name ∈ glob_png dir) as Hin by (rewrite Hg; by left).
  unfold glob_png in Hin. apply list_elem_of_filter in Hin as [Hm _].
  unfold matches_png in Hm. apply andb_prop in Hm as [_ Hm].
  by apply negb_true_iff in Hm.
Qed.

End PipelineFacts.

(** X18.  What the scraper stores the resolver finds.  Let a run answer
    [True] for a [png] image and a title that round-trips (no whitespace at
    either end, no line break, no marker), the text of its metadata file
    being UTF-8.  Let the latest directory of the archive, its name free
    of the pattern characters [* ? [] of [glob], hold the metadata file of
    that run, with the image first among the [png] files [glob] lists.
    Then [get_most_recent_comic] returns that day, the base name and the
    title of the record and the escaped path of the image; and
    [update_readme], when [README.md] is no directory and the text can be
    encoded, leaves in [README.md] the heading, the day, the link to the
    image, the title and the closing note of the template, each followed
    by an empty line. *)
Theorem scraper_then_resolver
    (w : world) (cwd cwd' : gmap string string) soup data
    (root days dir : list (string * entry)) (day : string)
    (rest others : list string) :
  fetch_webpage w QWANTZ_BASE_URL = Some soup →
  extract_comic_data soup = Some data →
  get_current_comic w cwd = (true, cwd') →
  get_file_extension (image_url data) = "png" →
  Py.starts_with_space (title data) = false →
  Py.ends_with_space (title data) = false →
  Py.mem Py.LF (title data) = false →
  Py.mem Py.CR (title data) = false →
  Py.contains "Title:" (title data) = false →
  Py.is_utf8 (metadata_text data) = true →
  lookup "data" root = Some (Dir days) →
  sorted_reverse (subdirectories days) = day :: rest →
  has_magic day = false →
  lookup day days = Some (Dir dir) →
  glob_png dir = image_path (image_url data) :: others →
  lookup (metadata_path (image_url data)) dir
    = File <$> cwd' !! metadata_path (image_url data) →
  let path :=
    Py.replace " " "%20" ("data/" +:+ day +:+ "/" +:+ image_path (image_url data)) in
  let text :=
    "# Dinosaur Comics Daily" +:+ Py.nl +:+ Py.nl +:+
    "#### " +:+ day +:+ Py.nl +:+ Py.nl +:+
    "![" +:+ base_filename (image_url data) +:+ "](" +:+ path +:+ ")"
    +:+ Py.nl +:+ Py.nl +:+
    "**" +:+ title data +:+ "**" +:+ Py.nl +:+ Py.nl +:+
    "---" +:+ Py.nl +:+ Py.nl +:+
    "*This README is automatically updated with the latest Dinosaur Comics comic.*"
    +:+ Py.nl in
  get_most_recent_comic root =
    Return (Some (day, base_filename (image_url data), path, title data)) ∧
  ((∀ entries, lookup "README.md" root ≠ Some (Dir entries)) →
   Py.is_utf8 text = true →
   update_readme Written root = (put "README.md" text root, Return ()) ∧
   lookup "README.md" (update_readme Written root).1 = Some (File text)).
Proof.
  intros Hf He Hrun Hext Hl Hr Hlf Hcr Hm Hutf Hdata Hsorted Hmagic Hday Hglob Hmeta
    path text.
  apply get_current_comic_success in Hrun
    as (soup' & data' & image_data & Hf' & He' & Hd & ->).
  assert (data' = data) as -> by congruence.
  rewrite lookup_insert_eq in Hmeta. cbn [fmap option_fmap option_map] in Hmeta.
  assert (base_filename (image_url data) ≠ EmptyString) as Hbase.
  { intros Hb. apply glob_png_visible in Hglob. unfold image_path in Hglob.
    rewrite Hb in Hglob.
    change (EmptyString +:+ "." +:+ get_file_extension (image_url data))
      with ("." +:+ get_file_extension (image_url data)) in Hglob.
    by rewrite prefix_app_same in Hglob. }
  assert (get_most_recent_comic root =
    Return (Some (day, base_filename (image_url data), path, title data)))
    as Hfound.
  { unfold get_most_recent_comic.
    rewrite Hdata, Hsorted, Hday, glob_most_recent_plain, Hglob by done.
    cbn [map]. rewrite stem_image_path by done.
    fold (metadata_path (image_url data)).
    unfold open_metadata_title, read_metadata_title.
    by rewrite Hmeta, decode_raises_utf8, scan_title_metadata_text. }
  split; [done|]. intros Hreadme Henc. unfold update_readme, write_text.
  rewrite Hfound. change (readme_content _ _ _ _) with text. rewrite Henc.
  destruct (lookup "README.md" root) as [[old|entries]|] eqn:Hold; cbn [fst].
  - split; [done|apply lookup_put_eq].
  - by destruct (Hreadme entries).
  - split; [done|apply lookup_put_eq].
Qed.

Lemma scraper_then_resolver_witness :
  get_most_recent_comic (archive_with (metadata_text plain_record)) =
    Return (Some ("2024-01-02", "strip", "data/2024-01-02/strip.png", "T")) ∧
  lookup "README.md"
    (update_readme Written (archive_with (metadata_text plain_record))).1 =
    Some (File ("# Dinosaur Comics Daily" +:+ Py.nl +:+ Py.nl +:+
                "#### 2024-01-02" +:+ Py.nl +:+ Py.nl +:+
                "![strip](data/2024-01-02/strip.png)" +:+ Py.nl +:+ Py.nl +:+
                "**T**" +:+ Py.nl +:+ Py.nl +:+
                "---" +:+ Py.nl +:+ Py.nl +:+
                "*This README is automatically updated with the latest Dinosaur Comics comic.*"
                +:+ Py.nl)).
Proof.
  pose proof (scraper_then_resolver (serve strip_page png_bytes Written Written) ∅
           {[ "strip.png" := png_bytes;
              "strip_metadata.txt" := metadata_text plain_record ]}
           strip_page plain_record
           (archive_with (metadata_text plain_record))
           [("2024-01-02",
             Dir [("strip.png", File png_bytes);
                  ("strip_metadata.txt", File (metadata_text plain_record))])]
           [("strip.png", File png_bytes);
            ("strip_metadata.txt", File (metadata_text plain_record))]
           "2024-01-02" [] []
           ltac:(vm_compute; reflexivity) ltac:(vm_compute; reflexivity)
           ltac:(vm_compute; reflexivity) ltac:(vm_compute; reflexivity)
           ltac:(vm_compute; reflexivity) ltac:(vm_compute; reflexivity)
           ltac:(vm_compute; reflexivity) ltac:(vm_compute; reflexivity)
           ltac:(vm_compute; reflexivity) ltac:(vm_compute; reflexivity)
           ltac:(vm_compute; reflexivity) ltac:(vm_compute; reflexivity)
           ltac:(vm_compute; reflexivity) ltac:(vm_compute; reflexivity)
           ltac:(vm_compute; reflexivity) ltac:(vm_compute; reflexivity))
    as [Hfound Hreadme].
  split; [exact Hfound|].
  apply Hreadme; [intros entries; discriminate|vm_compute; reflexivity].
Defined.

(** X19.  In one and the same world a second run stores nothing new: it
    answers as the first run did and leaves the working directory as the
    first run left it. *)
Theorem get_current_comic_rerun (w : world) (cwd : gmap string string) :
  get_current_comic w (get_current_comic w cwd).2 = get_current_comic w cwd.
Proof.
  unfold get_current_comic, save_image, write_file.
  destruct (fetch_webpage w QWANTZ_BASE_URL) as [soup|]; [|done].
  destruct (extract_comic_data soup) as [data|]; [|done].
  destruct (download_image w (image_url data)) as [image_data|]; [|done].
  pose proof (image_path_ne_metadata_path (image_url data)) as Hne.
  destruct (image_io w), (metadata_io w); cbn [negb fst snd]; try done;
    f_equal; apply map_eq; intros p; rewrite !lookup_insert;
    repeat case_decide; congruence.
Qed.

Section ExtensionVisible.

Implicit Types (s p : string).



End ExtensionVisible.



Section LineFacts.

Implicit Types (a b c : ascii) (s t old new : string).

Lemma lines_bodies s : Forall (λ l, ∃ body, line_body l body) (Py.lines s).
Proof.
  induction s as [|a s IH]; [constructor|].
  assert (Forall (λ l, ∃ body, line_body l body) (Py.nl :: Py.lines s)) as Hnl.
  { constructor; [|done]. exists EmptyString. split_and!; [by left|done..]. }
  cbn [Py.lines]. destruct (Ascii.eqb a Py.LF) eqn:Hlf; [done|].
  destruct (Ascii.eqb a Py.CR) eqn:Hcr.
  - destruct s as [|b s']; [by repeat constructor; exists EmptyString;
                              split_and!; [left|..]|].
    destruct (Ascii.eqb b Py.LF) eqn:Hb; [|done].
    constructor; [exists EmptyString; by split_and!; [left|..]|].
    cbn [Py.lines] in IH. rewrite Hb in IH. by apply Forall_cons in IH as [_ ?].
  - destruct (Py.lines s) as [|l ls]; constructor; try done.
    + exists (Py.chr a). split_and!; [by right|..]; cbn [Py.mem Py.chr];
        by rewrite Ascii.eqb_sym, ?Hlf, ?Hcr.
    + apply Forall_cons in IH as [(body & [Hl Hb] ) _].
      exists (String a body). destruct Hb as [Hb1 Hb2]. split_and!.
      * destruct Hl as [-> | ->]; [by left|by right].
      * cbn [Py.mem]. by rewrite Ascii.eqb_sym, Hlf, Hb1.
      * cbn [Py.mem]. by rewrite Ascii.eqb_sym, Hcr, Hb2.
    + by apply Forall_cons in IH as [_ ?].
Qed.

Lemma length_app s t :
  String.length (s +:+ t) = String.length s + String.length t.
Proof. induction s as [|a s IH]; simpl; [done|by rewrite IH]. Qed.

Lemma prefix_length p s :
  String.prefix p s = true → String.length p ≤ String.length s.
Proof. intros [r ->]%prefix_true. rewrite length_app. lia. Qed.

(** Replacing commutes with a last character the pattern does not hold. *)
Lemma replace_go_snoc old new c k s :
  old ≠ EmptyString → Py.mem c old = false → k ≤ String.length s →
  Py.replace_go old new k (s +:+ Py.chr c)
  = Py.replace_go old new k s +:+ Py.chr c.
Proof.
  intros Hold Hc. revert k. induction s as [|a s IH]; intros k Hk.
  - simpl in Hk. assert (k = 0) as -> by lia.
    cbn [String.append Py.chr Py.replace_go].
    change (String c EmptyString) with (EmptyString +:+ Py.chr c).
    rewrite prefix_snoc by done.
    destruct old; [done|]. by cbn [String.prefix].
  - change (String a s +:+ Py.chr c) with (String a (s +:+ Py.chr c)).
    cbn [Py.replace_go]. destruct k as [|k].
    + change (String a (s +:+ Py.chr c)) with (String a s +:+ Py.chr c).
      rewrite prefix_snoc by done.
      destruct (String.prefix old (String a s)) eqn:Hp.
      * apply prefix_length in Hp. simpl in Hp.
        rewrite IH by lia. by rewrite app_assoc'.
      * by rewrite IH by lia.
    + simpl in Hk. by rewrite IH by lia.
Qed.

(** Replacing by nothing adds no character. *)
Lemma mem_replace_go_empty old c k s :
  Py.mem c (Py.replace_go old EmptyString k s) = true → Py.mem c s = true.
Proof.
  revert k. induction s as [|a s IH]; intros k; [done|].
  cbn [Py.replace_go Py.mem]. destruct k as [|k].
  - destruct (String.prefix old (String a s)).
    + intros H%IH. rewrite H. apply orb_true_r.
    + cbn [Py.mem]. intros [->|H%IH]%orb_prop; [done|].
      rewrite H. apply orb_true_r.
  - intros H%IH. rewrite H. apply orb_true_r.
Qed.

Lemma mem_lstrip c s : Py.mem c (Py.lstrip s) = true → Py.mem c s = true.
Proof.
  assert (∀ n s, String.length s ≤ n →
                 Py.mem c (Py.lstrip s) = true → Py.mem c s = true) as H.
  { clear s. induction n as [|n IH]; intros s Hn.
    { destruct s; [done|simpl in Hn; lia]. }
    destruct s as [|a r1]; [done|]. simpl in Hn. cbn [Py.lstrip].
    destruct (Py.is_space (Py.chr a)).
    { intros Hm%IH; [|lia]. cbn [Py.mem]. rewrite Hm. apply orb_true_r. }
    destruct r1 as [|b r2]; [done|]. simpl in Hn.
    destruct (Py.is_space (String a (Py.chr b))).
    { intros Hm%IH; [|lia]. cbn [Py.mem]. rewrite Hm. by rewrite !orb_true_r. }
    destruct r2 as [|d r3]; [done|]. simpl in Hn.
    destruct (Py.is_space (String a (String b (Py.chr d)))); [|done].
    intros Hm%IH; [|lia]. cbn [Py.mem]. rewrite Hm. by rewrite !orb_true_r. }
  by apply (H (String.length s)).
Qed.

Lemma mem_rstrip c s : Py.mem c (Py.rstrip s) = true → Py.mem c s = true.
Proof.
  destruct (rstrip_head s) as [r Hr]. intros Hm. rewrite Hr, mem_app, Hm. done.
Qed.

Lemma mem_strip c s : Py.mem c (Py.strip s) = true → Py.mem c s = true.
Proof. intros ?%mem_rstrip. by apply mem_lstrip. Qed.

(** No whitespace character goes on with a newline. *)
Lemma is_space_newline_tail s :
  s ≠ EmptyString → Py.is_space (s +:+ Py.nl) = false.
Proof.
  intros Hs. apply not_true_is_false. intros Hw%is_space_elem.
  pose proof (proj1 (Forall_forall _ _) whitespace_shape _ Hw) as [Heq | [_ Hm]].
  - destruct s as [|a [|b s]]; [done|done|done].
  - rewrite mem_app in Hm. cbn [Py.mem Py.nl Py.chr] in Hm.
    rewrite Ascii.eqb_refl in Hm. by rewrite orb_true_r in Hm.
Qed.

(** A final newline makes no difference to [strip]. *)
Lemma strip_snoc_nl s : Py.strip (s +:+ Py.nl) = Py.strip s.
Proof.
  unfold Py.strip.
  assert (∀ n s, String.length s ≤ n →
                 Py.rstrip (Py.lstrip (s +:+ Py.nl)) = Py.rstrip (Py.lstrip s)) as H.
  { clear s. induction n as [|n IH]; intros s Hn.
    { destruct s; [vm_compute; reflexivity|simpl in Hn; lia]. }
    destruct s as [|a [|b [|d r3]]]; simpl in Hn.
    - vm_compute; reflexivity.
    - change (String a EmptyString +:+ Py.nl) with (String a (Py.chr Py.LF)).
      cbn [Py.lstrip]. destruct (Py.is_space (Py.chr a)) eqn:H1.
      + apply (IH EmptyString). simpl. lia.
      + assert (Py.is_space (String a (String Py.LF EmptyString)) = false) as E
          by (by apply (is_space_newline_tail (Py.chr a))).
        cbv [Py.chr] in *. rewrite E. apply (rstrip_snoc_nl (String a EmptyString)).
    - change (String a (String b EmptyString) +:+ Py.nl)
        with (String a (String b (Py.chr Py.LF))).
      cbn [Py.lstrip]. destruct (Py.is_space (Py.chr a)) eqn:H1.
      + apply (IH (Py.chr b)). simpl. lia.
      + destruct (Py.is_space (String a (Py.chr b))) eqn:H2.
        * apply (IH EmptyString). simpl. lia.
        * assert (Py.is_space (String a (String b (String Py.LF EmptyString)))
                  = false) as E
            by (by apply (is_space_newline_tail (String a (Py.chr b)))).
          cbv [Py.chr] in *. rewrite E.
          apply (rstrip_snoc_nl (String a (String b EmptyString))).
    - change (String a (String b (String d r3)) +:+ Py.nl)
        with (String a (String b (String d (r3 +:+ Py.nl)))).
      cbn [Py.lstrip]. destruct (Py.is_space (Py.chr a)) eqn:H1.
      + apply (IH (String b (String d r3))). simpl. lia.
      + destruct (Py.is_space (String a (Py.chr b))) eqn:H2.
        * apply (IH (String d r3)). simpl. lia.
        * destruct (Py.is_space (String a (String b (Py.chr d)))) eqn:H3.
          -- apply IH. lia.
          -- apply (rstrip_snoc_nl (String a (String b (String d r3)))). }
  by apply (H (String.length s)).
Qed.

(** The title taken from a line holds no line break. *)
Lemma title_of_line_unbroken l body :
  line_body l body →
  Py.mem Py.LF (Py.strip (Py.replace "Title:" EmptyString l)) = false ∧
  Py.mem Py.CR (Py.strip (Py.replace "Title:" EmptyString l)) = false.
Proof.
  intros ([-> | ->] & Hlf & Hcr); unfold Py.replace.
  - change Py.nl with (Py.chr Py.LF).
    rewrite (replace_go_snoc "Title:" EmptyString Py.LF 0 body)
      by (done || lia).
    change (Py.chr Py.LF) with Py.nl.
    rewrite strip_snoc_nl.
    split; apply not_true_is_false; intros H%mem_strip%mem_replace_go_empty;
      congruence.
  - split; apply not_true_is_false; intros H%mem_strip%mem_replace_go_empty;
      congruence.
Qed.

Lemma scan_title_unbroken lines :
  Forall (λ l, ∃ body, line_body l body) lines →
  Py.mem Py.LF (scan_title lines) = false ∧
  Py.mem Py.CR (scan_title lines) = false.
Proof.
  induction 1 as [|l lines [body Hl] _ IH]; cbn [scan_title]; [done|].
  destruct (String.prefix "Title:" l); [by apply (title_of_line_unbroken l body)|done].
Qed.

End LineFacts.

(** X21.  The title [get_most_recent_comic] returns holds no line break,
    neither a newline nor a carriage return, whatever the metadata file
    holds: the title line of the README stays one line. *)
Theorem resolved_title_one_line (root : list (string * entry))
    date name path title :
  get_most_recent_comic root = Return (Some (date, name, path, title)) →
  Py.mem Py.LF title = false ∧ Py.mem Py.CR title = false.
Proof.
  intros (data & rest & dir & found_in & image_name & others &
          _ & _ & _ & _ & _ & _ & Ht)%get_most_recent_comic_inv.
  revert Ht. unfold read_metadata_title.
  destruct (lookup _ dir) as [[content|]|]; [|done|].
  - intros [= <-]. apply scan_title_unbroken, lines_bodies.
  - intros [= <-]. done.
Qed.

Lemma resolved_title_one_line_witness :
  Py.mem Py.LF "a" = false ∧ Py.mem Py.CR "a" = false.
Proof.
  apply (resolved_title_one_line (archive_with (metadata_text cr_record))
           "2024-01-02" "strip" "data/2024-01-02/strip.png" "a").
  vm_compute. reflexivity.
Defined.

(** * The latest directory *)

Section LatestDirectory.

Implicit Types (root data dir : list (string * entry)).



End LatestDirectory.


